(** * OTE training tests helper: matrix expansion and test-case reuse

    A shallow embedding of
    [ote_sdk/algo_backends/test_helpers/training_tests_helper.py]
    (class [OTETestHelper] with its single-slot [_Cache]) and the
    properties of its two public operations, [get_list_of_tests] and
    [get_test_case]. *)

From Stdlib Require Import ZArith String Ascii List.
From stdpp Require Import base option list strings pretty gmap fin_maps.

Local Open Scope string_scope.
Local Open Scope list_scope.

(** ** Python values *)

(** The values a test bunch holds.  Only the fragment of Python on which
    [==] is structural equality is modelled: [None], integers, strings, and
    lists and tuples of such values ([bool] and [float] are left out, since
    [True == 1] and [1 == 1.0]).  A [string] is a [str] whose characters are
    code points below 256. *)
#[warnings="-register-all"]
Inductive value : Type :=
  | VNone
  | VInt (z : Z)
  | VStr (s : string)
  | VList (l : list value)
  | VTuple (l : list value).

(** Python's [==] on this fragment is structural equality, which is
    decidable. *)
Fixpoint value_eq_dec (v w : value) {struct v} : {v = w} + {v ≠ w}.
Proof.
  decide equality.
  - apply Z.eq_dec.
  - apply string_dec.
  - apply (List.list_eq_dec value_eq_dec).
  - apply (List.list_eq_dec value_eq_dec).
Defined.

#[global] Instance value_eq_decision : EqDecision value := value_eq_dec.

(** A Python [dict] with string keys.  Dict equality does not depend on the
    insertion order, so a finite map is the right carrier. *)
Abbreviation dict := (gmap string value).

(** ** Rendering: [str], [repr] and [str.join] *)

Definition quote_char : ascii := "039"%char.
Definition dquote_char : ascii := "034"%char.
Definition backslash_char : ascii := "092"%char.

Fixpoint string_mem (c : ascii) (s : string) : bool :=
  match s with
  | EmptyString => false
  | String c' r => Ascii.eqb c c' || string_mem c r
  end.

Definition hex_digit (n : nat) : ascii :=
  nth n (list_ascii_of_string "0123456789abcdef") "0"%char.

(** A character of a [str] is a code point below 256: the value of type
    [ascii] is the code point itself (Latin-1), not a byte of an encoding.
    Among these, [str.isprintable] is false of the control characters
    0-31 and 127-159, of the no-break space 160 and of the soft hyphen
    173. *)
Definition printable (n : nat) : bool :=
  negb ((n <? 32)%nat || ((127 <=? n)%nat && (n <=? 160)%nat) || (n =? 173)%nat).

(** One character of [repr] of a [str]; [q] is the chosen quote.  The
    quote and the backslash get a backslash, tab, line feed and carriage
    return their letter, every other character that is not printable its
    two hexadecimal digits, and a printable character is kept. *)
Definition repr_char (q c : ascii) : string :=
  if Ascii.eqb c q || Ascii.eqb c backslash_char then String backslash_char (String c EmptyString)
  else if Ascii.eqb c "009"%char then "\t"
  else if Ascii.eqb c "010"%char then "\n"
  else if Ascii.eqb c "013"%char then "\r"
  else let n := nat_of_ascii c in
       if negb (printable n)
       then "\x" +:+ String (hex_digit (n / 16)) (String (hex_digit (n mod 16)) EmptyString)
       else String c EmptyString.

Fixpoint repr_body (q : ascii) (s : string) : string :=
  match s with
  | EmptyString => EmptyString
  | String c r => repr_char q c +:+ repr_body q r
  end.

(** [repr(s)] for a string: single quotes, unless the text has a single
    quote and no double quote. *)
Definition repr_str (s : string) : string :=
  let q := if string_mem quote_char s && negb (string_mem dquote_char s)
           then dquote_char else quote_char in
  String q (repr_body q s +:+ String q EmptyString).

Fixpoint py_repr (v : value) : string :=
  match v with
  | VNone => "None"
  | VInt z => pretty z
  | VStr s => repr_str s
  | VList l => "[" +:+ String.concat ", " (map py_repr l) +:+ "]"
  | VTuple l =>
      match l with
      | [x] => "(" +:+ py_repr x +:+ ",)"
      | _ => "(" +:+ String.concat ", " (map py_repr l) +:+ ")"
      end
  end.

(** [str(v)], which an f-string applies to an interpolated value. *)
Definition py_str (v : value) : string :=
  match v with
  | VStr s => s
  | _ => py_repr v
  end.

(** [sep.join(parts)] *)
Definition join (sep : string) (parts : list string) : string :=
  String.concat sep parts.

(** ** Exceptions and results *)

(** The exceptions of the helper.  [CaseConstructionError] stands for
    whatever the constructor of the test case class raises.
    [AttributeError] is what [el.get] gives on an element that is not a
    dict.  [DanglingReference] has no Python counterpart: it is the answer
    of the model for a reference that is not on the heap. *)
Inductive exn : Type :=
  | KeyError (k : string)
  | AssertionError
  | AttributeError
  | CaseConstructionError (msg : string)
  | DanglingReference.

Inductive result (A : Type) : Type :=
  | Ok (a : A)
  | Raise (e : exn).
Arguments Ok {A} a.
Arguments Raise {A} e.

Definition result_bind {A B} (r : result A) (f : A → result B) : result B :=
  match r with
  | Ok a => f a
  | Raise e => Raise e
  end.

(** [[f(x) for x in xs]] for a fallible [f]: the first failure wins. *)
Fixpoint result_map {A B} (f : A → result B) (xs : list A) : result (list B) :=
  match xs with
  | [] => Ok []
  | x :: r =>
      result_bind (f x) (λ y, result_bind (result_map f r) (λ ys, Ok (y :: ys)))
  end.

(** ** The helper object, the heap and the effect monad *)

Section Helper.

(** The type of [params_factories_for_test_actions]: opaque to the helper,
    passed through to the test case constructor. *)
Variable Factories : Type.

(** The placeholder returned by [DEFAULT_FIELD_VALUE_FOR_USING_IN_TEST()]
    of [training_tests_common], a module outside this file. *)
Variable DEFAULT_FIELD_VALUE_FOR_USING_IN_TEST : value.

(** What the helper uses of a test case class: the class method
    [get_list_of_test_stages] and the constructor, which may raise
    ([Some msg]) or build an instance ([None]). *)
Record TestCaseClass : Type := {
  get_list_of_test_stages : list value;
  tc_init : Factories → option string
}.

(** [OTETestHelper._Cache]: the key is held by value, since [set] stores a
    deep copy that nothing else references; the cached value is a
    reference to a test case instance, or [None]. *)
Record Cache : Type := {
  _cache_parameters : dict;
  _cached_value : option nat
}.

(** An element of the test bunches list: a reference to a dict on the
    heap, or something that is not a dict. *)
Inductive entry : Type :=
  | EDict (a : nat)
  | EOther (v : value).

Record OTETestHelper : Type := {
  test_case_class : TestCaseClass;
  test_bunches : list entry;
  short_test_parameters_names_for_generating_id : list (string * string);
  test_parameters_defining_test_case_behavior : list string;
  default_test_parameters : dict;
  _cache : Cache
}.

(** The outputs of an [OTETestCreationParametersInterface]. *)
Record OTETestCreationParameters : Type := {
  cp_test_case_class : TestCaseClass;
  cp_test_bunches : list entry;
  cp_short_test_parameters_names_for_generating_id : list (string * string);
  cp_test_parameters_defining_test_case_behavior : list string;
  cp_default_test_parameters : dict
}.

(** The program state: the helper object [self], the dicts on the heap
    (a reference is an index) and the test case instances built so far
    (each remembered by its constructor argument). *)
Record state : Type := {
  self : OTETestHelper;
  dicts : list dict;
  objects : list Factories
}.

Definition set_dicts (ds : list dict) (σ : state) : state :=
  {| self := self σ; dicts := ds; objects := objects σ |}.
Definition set_objects (os : list Factories) (σ : state) : state :=
  {| self := self σ; dicts := dicts σ; objects := os |}.
Definition set_cache (c : Cache) (σ : state) : state :=
  {| self :=
       {| test_case_class := test_case_class (self σ);
          test_bunches := test_bunches (self σ);
          short_test_parameters_names_for_generating_id :=
            short_test_parameters_names_for_generating_id (self σ);
          test_parameters_defining_test_case_behavior :=
            test_parameters_defining_test_case_behavior (self σ);
          default_test_parameters := default_test_parameters (self σ);
          _cache := c |};
     dicts := dicts σ; objects := objects σ |}.

(** Computations that read and write the state and may raise; the state
    at the raise is kept, as in Python. *)
Definition M (A : Type) : Type := state → result A * state.

Definition ret {A} (a : A) : M A := λ σ, (Ok a, σ).
Definition bind {A B} (m : M A) (f : A → M B) : M B :=
  λ σ, match m σ with
       | (Ok a, σ') => f a σ'
       | (Raise e, σ') => (Raise e, σ')
       end.
Definition raise {A} (e : exn) : M A := λ σ, (Raise e, σ).
Definition gets {A} (f : state → A) : M A := λ σ, (Ok (f σ), σ).
Definition modify (f : state → state) : M unit := λ σ, (Ok tt, f σ).

#[local] Instance M_ret : MRet M := @ret.
#[local] Instance M_bind : MBind M := λ A B f m, bind m f.

(** A [for] loop whose body updates the local variables [acc]. *)
Fixpoint foldM {A X} (body : A → X → M A) (acc : A) (xs : list X) : M A :=
  match xs with
  | [] => ret acc
  | x :: r => acc' ← body acc x; foldM body acc' r
  end.

(** A generator expression consumed to the end. *)
Fixpoint mapM {A X} (f : X → M A) (xs : list X) : M (list A) :=
  match xs with
  | [] => ret []
  | x :: r => y ← f x; ys ← mapM f r; ret (y :: ys)
  end.

Definition assert (b : bool) : M unit :=
  if b then ret tt else raise AssertionError.

(** *** Dict operations on the heap *)

Definition dict_read (a : nat) : M dict :=
  λ σ, match dicts σ !! a with
       | Some d => (Ok d, σ)
       | None => (Raise DanglingReference, σ)
       end.

(** [d.get(k)] *)
Definition dict_get (a : nat) (k : string) : M value :=
  d ← dict_read a; ret (default VNone (d !! k)).

(** [d[k]] *)
Definition dict_getitem (a : nat) (k : string) : M value :=
  d ← dict_read a;
  match d !! k with
  | Some v => ret v
  | None => raise (KeyError k)
  end.

(** [d[k] = v] *)
Definition dict_setitem (a : nat) (k : string) (v : value) : M unit :=
  d ← dict_read a;
  modify (λ σ, set_dicts (<[a := <[k := v]> d]> (dicts σ)) σ).

(** [deepcopy(d)]: a new dict with the same contents. *)
Definition deepcopy (a : nat) : M nat :=
  d ← dict_read a;
  n ← gets (λ σ, length (dicts σ));
  modify (λ σ, set_dicts (dicts σ ++ [d]) σ);;
  ret n.

(** *** [_Cache] *)

Definition Cache_init : Cache :=
  {| _cache_parameters := ∅; _cached_value := None |}.

Definition Cache_get : M (option nat) :=
  gets (λ σ, _cached_value (_cache (self σ))).

Definition Cache_set (params : dict) (value : nat) : M unit :=
  modify (set_cache {| _cache_parameters := params; _cached_value := Some value |}).

Definition Cache_has_same_params (params : dict) : M bool :=
  c ← gets (λ σ, _cache (self σ));
  let res := bool_decide (_cache_parameters c = params) in
  ret res.

(** *** [OTETestHelper] *)

(** [__init__] on outputs that keep to the annotations of the interface:
    of the assertions, those on the keys of the naming map are left to
    decide.  [OTETestHelper___init__] below has all of them, on outputs of
    any type. *)
Definition OTETestHelper_init (p : OTETestCreationParameters) : result OTETestHelper :=
  let names := cp_short_test_parameters_names_for_generating_id p in
  let has k := bool_decide (k ∈ names.*1) in
  if has "test_stage" && has "model_name" && has "dataset_name" && has "usecase"
  then Ok {| test_case_class := cp_test_case_class p;
             test_bunches := cp_test_bunches p;
             short_test_parameters_names_for_generating_id := names;
             test_parameters_defining_test_case_behavior :=
               cp_test_parameters_defining_test_case_behavior p;
             default_test_parameters := cp_default_test_parameters p;
             _cache := Cache_init |}
  else Raise AssertionError.

(** *** [__init__] on the objects it is given

    The interface is an abstract base class and nothing makes its methods
    return what their annotations say, which is why [__init__] asserts it.
    Here the outputs are Python objects, and [__init__] is its twelve
    assertions in the order of the source. *)

(** The class of a mapping: [isinstance(m, OrderedDict)] holds of the
    second only, [isinstance(m, dict)] of both. *)
Inductive mapping_class : Type :=
  | PlainDict
  | OrderedDict.

(** An output of an interface method: a mapping with its items in order
    (the keys pairwise different), or a value that is no mapping. *)
Inductive pyobject : Type :=
  | PValue (v : value)
  | PMapping (c : mapping_class) (items : list (value * value)).

(** What [test_case_class()] returns: something that is not a class, a
    class that does not derive from [OTETestCaseInterface], or one that
    does. *)
Inductive class_object : Type :=
  | NotAClass
  | OtherClass
  | TestCaseSubclass (cls : TestCaseClass).

Record InterfaceOutputs : Type := {
  out_test_case_class : class_object;
  out_test_bunches : list entry;
  out_short_test_parameters_names_for_generating_id : pyobject;
  out_test_parameters_defining_test_case_behavior : pyobject;
  out_default_test_parameters : pyobject
}.

(** The argument of [__init__]: an instance of
    [OTETestCreationParametersInterface], given by what its methods return,
    or any other object. *)
Inductive creation_argument : Type :=
  | NotAnInterface
  | AnInterface (o : InterfaceOutputs).

(** [issubclass] raises [TypeError] when its first argument is not a
    class. *)
Inductive init_result : Type :=
  | Constructed (h : OTETestHelper)
  | RaisedAssertionError
  | RaisedTypeError.

Definition isinstance_str (v : value) : bool :=
  match v with
  | VStr _ => true
  | _ => false
  end.

Definition isinstance_OrderedDict (x : pyobject) : bool :=
  match x with
  | PMapping OrderedDict _ => true
  | _ => false
  end.

Definition isinstance_dict (x : pyobject) : bool :=
  match x with
  | PMapping _ _ => true
  | _ => false
  end.

Definition isinstance_list (x : pyobject) : bool :=
  match x with
  | PValue (VList _) => true
  | _ => false
  end.

(** [m.items()] of a mapping and the elements of a list; the text of a
    [str].  Each is used after the assertion on the class of its
    argument. *)
Definition mapping_items (x : pyobject) : list (value * value) :=
  match x with
  | PMapping _ items => items
  | _ => []
  end.

Definition list_elements (x : pyobject) : list value :=
  match x with
  | PValue (VList l) => l
  | _ => []
  end.

Definition str_of (v : value) : string :=
  match v with
  | VStr s => s
  | _ => EmptyString
  end.

(** [assert b], followed by the rest of the body. *)
Definition check (b : bool) (rest : init_result) : init_result :=
  if b then rest else RaisedAssertionError.

(** [OTETestHelper.__init__]: the assertion on the argument, the calls of
    the five methods and the construction of the cache, which raise
    nothing, and the assertions on what the methods returned.  The test
    bunches are stored unchecked. *)
Definition OTETestHelper___init__ (test_creation_parameters : creation_argument)
  : init_result :=
  match test_creation_parameters with
  | NotAnInterface => RaisedAssertionError
  | AnInterface o =>
      let names := out_short_test_parameters_names_for_generating_id o in
      let keys := out_test_parameters_defining_test_case_behavior o in
      let defaults := out_default_test_parameters o in
      match out_test_case_class o with
      | NotAClass => RaisedTypeError
      | OtherClass => RaisedAssertionError
      | TestCaseSubclass cls =>
          check (isinstance_OrderedDict names) (
          check (forallb (λ kv, isinstance_str kv.1 && isinstance_str kv.2)
                   (mapping_items names)) (
          check (bool_decide (VStr "test_stage" ∈ (mapping_items names).*1)) (
          check (bool_decide (VStr "model_name" ∈ (mapping_items names).*1)) (
          check (bool_decide (VStr "dataset_name" ∈ (mapping_items names).*1)) (
          check (bool_decide (VStr "usecase" ∈ (mapping_items names).*1)) (
          check (isinstance_list keys) (
          check (forallb isinstance_str (list_elements keys)) (
          check (isinstance_dict defaults) (
          check (forallb (λ kv, isinstance_str kv.1) (mapping_items defaults)) (
          Constructed
            {| test_case_class := cls;
               test_bunches := out_test_bunches o;
               short_test_parameters_names_for_generating_id :=
                 (λ kv, (str_of kv.1, str_of kv.2)) <$> mapping_items names;
               test_parameters_defining_test_case_behavior :=
                 str_of <$> list_elements keys;
               default_test_parameters :=
                 list_to_map ((λ kv, (str_of kv.1, kv.2)) <$> mapping_items defaults);
               _cache := Cache_init |}))))))))))
      end
  end.

(** The outputs [o] are those of an interface that keeps to its
    annotations, and are the typed parameters [p]: a test case class, an
    [OrderedDict] from [str] to [str], a list of [str] and a dict (of either
    class) with [str] keys. *)
Definition presents (o : InterfaceOutputs) (p : OTETestCreationParameters) : Prop :=
  out_test_case_class o = TestCaseSubclass (cp_test_case_class p) ∧
  out_test_bunches o = cp_test_bunches p ∧
  out_short_test_parameters_names_for_generating_id o
  = PMapping OrderedDict
      ((λ kn, (VStr kn.1, VStr kn.2)) <$> cp_short_test_parameters_names_for_generating_id p) ∧
  out_test_parameters_defining_test_case_behavior o
  = PValue (VList (VStr <$> cp_test_parameters_defining_test_case_behavior p)) ∧
  ∃ c items,
    out_default_test_parameters o = PMapping c ((λ kv, (VStr kv.1, kv.2)) <$> items) ∧
    cp_default_test_parameters p = list_to_map items.

(** *** [DefaultOTETestCreationParametersInterface] *)

Definition DEFAULT_SHORT_TEST_PARAMETERS_NAMES_FOR_GENERATING_ID : list (string * string) :=
  [("test_stage", "ACTION");
   ("model_name", "model");
   ("dataset_name", "dataset");
   ("num_training_iters", "num_iters");
   ("batch_size", "batch");
   ("usecase", "usecase")].

Definition DEFAULT_TEST_PARAMETERS_DEFINING_IMPL_BEHAVIOR : list string :=
  ["model_name"; "dataset_name"; "num_training_iters"; "batch_size"].

Definition DEFAULT_TEST_PARAMETERS : dict :=
  <["batch_size" := VInt 2]> (<["num_iters" := VInt 1]> ∅).

(** The outputs of the default interface.  The test case class (built by
    [generate_ote_integration_test_case_class], outside this file) and the
    bunches (left abstract by the class) are arguments. *)
Definition DefaultOTETestCreationParameters (cls : TestCaseClass) (bunches : list entry)
  : OTETestCreationParameters :=
  {| cp_test_case_class := cls;
     cp_test_bunches := bunches;
     cp_short_test_parameters_names_for_generating_id :=
       DEFAULT_SHORT_TEST_PARAMETERS_NAMES_FOR_GENERATING_ID;
     cp_test_parameters_defining_test_case_behavior :=
       DEFAULT_TEST_PARAMETERS_DEFINING_IMPL_BEHAVIOR;
     cp_default_test_parameters := DEFAULT_TEST_PARAMETERS |}.

Definition _get_list_of_test_stages : M (list value) :=
  gets (λ σ, get_list_of_test_stages (test_case_class (self σ))).

(** [val is None or val == DEFAULT_FIELD_VALUE_FOR_USING_IN_TEST()] *)
Definition needs_default (val : value) : bool :=
  bool_decide (val = VNone) || bool_decide (val = DEFAULT_FIELD_VALUE_FOR_USING_IN_TEST).

(** The loop visits the items of the defaults in the order [map_to_list]
    gives them; the keys are distinct, so the outcome does not depend on the
    order ([fill_defaults_lookup] below). *)
Definition _fill_test_parameters_default_values (test_parameters : nat) : M unit :=
  defaults ← gets (λ σ, default_test_parameters (self σ));
  foldM (λ _ '(key, default_val),
           val ← dict_get test_parameters key;
           if needs_default val
           then dict_setitem test_parameters key default_val
           else ret tt)
        tt (map_to_list defaults).

Definition _generate_test_id (test_parameters : nat) : M string :=
  names ← gets (λ σ, short_test_parameters_names_for_generating_id (self σ));
  id_parts ← mapM (λ '(par_name, short_par_name),
                     v ← dict_getitem test_parameters par_name;
                     ret (short_par_name +:+ "-" +:+ py_str v))
                  names;
  ret (join "," id_parts).

(** [el.get(k)] on an element of the bunch list. *)
Definition entry_get (el : entry) (k : string) : M value :=
  match el with
  | EDict a => dict_get a k
  | EOther _ => raise AttributeError
  end.

Definition entry_deepcopy (el : entry) : M nat :=
  match el with
  | EDict a => deepcopy a
  | EOther _ => raise AttributeError
  end.

Definition is_dict (el : entry) : bool :=
  match el with EDict _ => true | EOther _ => false end.

(** [x if isinstance(x, (list, tuple)) else [x]] *)
Definition as_sequence (x : value) : list value :=
  match x with
  | VList l | VTuple l => l
  | _ => [x]
  end.

Definition argnames : list string := ["test_parameters"].

(** The local variables [argvalues] and [ids] of [get_list_of_tests]. *)
Definition outputs : Type := list nat * list string.

(** Body of the innermost loop, [for test_stage in ...]. *)
Definition stage_body (el : entry) (m d : value) (acc : outputs) (test_stage : value)
  : M outputs :=
  let '(argvalues, ids) := acc in
  test_parameters ← entry_deepcopy el;
  dict_setitem test_parameters "test_stage" test_stage;;
  dict_setitem test_parameters "model_name" m;;
  dict_setitem test_parameters "dataset_name" d;;
  _fill_test_parameters_default_values test_parameters;;
  id ← _generate_test_id test_parameters;
  ret (argvalues ++ [test_parameters], ids ++ [id]).

(** Body of [for m, d in model_dataset_pairs]. *)
Definition pair_body (el : entry) (acc : outputs) (md : value * value) : M outputs :=
  let '(m, d) := md in
  stages ← _get_list_of_test_stages;
  foldM (stage_body el m d) acc stages.

(** Body of [for el in test_bunches]; [usecase] is [VNone] when the
    argument is not given. *)
Definition bunch_body (usecase : value) (acc : outputs) (el : entry) : M outputs :=
  el_model_name ← entry_get el "model_name";
  el_dataset_name ← entry_get el "dataset_name";
  el_usecase ← entry_get el "usecase";
  if bool_decide (usecase ≠ VNone) && bool_decide (el_usecase ≠ usecase)
  then ret acc
  else
    let model_names := as_sequence el_model_name in
    let dataset_names := as_sequence el_dataset_name in
    let model_dataset_pairs := list_prod model_names dataset_names in
    foldM (pair_body el) acc model_dataset_pairs.

Definition get_list_of_tests (usecase : value)
  : M (list string * list nat * list string) :=
  test_bunches ← gets (λ σ, test_bunches (self σ));
  assert (forallb is_dict test_bunches);;
  '(argvalues, ids) ← foldM (bunch_body usecase) ([], []) test_bunches;
  ret (argnames, argvalues, ids).

(** The constructor call [self.test_case_class(factories)]. *)
Definition construct (factories : Factories) : M nat :=
  cls ← gets (λ σ, test_case_class (self σ));
  match tc_init cls factories with
  | Some msg => raise (CaseConstructionError msg)
  | None =>
      n ← gets (λ σ, length (objects σ));
      modify (λ σ, set_objects (objects σ ++ [factories]) σ);;
      ret n
  end.

(** [{k: test_parameters[k] for k in keys}] *)
Definition dict_comprehension (test_parameters : nat) (keys : list string) : M dict :=
  foldM (λ acc k, v ← dict_getitem test_parameters k; ret (<[k := v]> acc))
        (∅ : dict) keys.

Definition get_test_case (test_parameters : nat)
    (params_factories_for_test_actions : Factories) : M (option nat) :=
  keys ← gets (λ σ, test_parameters_defining_test_case_behavior (self σ));
  params_defining_cache ← dict_comprehension test_parameters keys;
  same ← Cache_has_same_params params_defining_cache;
  (if negb same
   then test_case ← construct params_factories_for_test_actions;
        Cache_set params_defining_cache test_case
   else ret tt);;
  Cache_get.

(** A run of tests: the calls are made one after the other on the same
    helper; a call that raises fails its own test only. *)
Fixpoint get_test_case_calls (calls : list (nat * Factories)) (σ : state)
  : list (result (option nat)) * state :=
  match calls with
  | [] => ([], σ)
  | (tp, f) :: r =>
      let '(res, σ') := get_test_case tp f σ in
      let '(rs, σ'') := get_test_case_calls r σ' in
      (res :: rs, σ'')
  end.

(** ** Pure readings of the code and the vocabulary of the statements *)

(** The case identity key of a record with contents [d]: its projection
    onto [keys], or the [KeyError] of the first key it lacks. *)
Fixpoint project_from (acc d : dict) (keys : list string) : result dict :=
  match keys with
  | [] => Ok acc
  | k :: r =>
      match d !! k with
      | Some v => project_from (<[k := v]> acc) d r
      | None => Raise (KeyError k)
      end
  end.

Definition case_identity_key (keys : list string) (d : dict) : result dict :=
  project_from ∅ d keys.

(** The id of a record with contents [d]. *)
Definition id_part (d : dict) (kn : string * string) : result string :=
  match d !! kn.1 with
  | Some v => Ok (kn.2 +:+ "-" +:+ py_str v)
  | None => Raise (KeyError kn.1)
  end.

Definition test_id (names : list (string * string)) (d : dict) : result string :=
  result_bind (result_map (id_part d) names) (λ parts, Ok (join "," parts)).

(** One step of the default fill-in on the contents of a record. *)
Definition fill_step (d : dict) (kv : string * value) : dict :=
  if needs_default (default VNone (d !! kv.1)) then <[kv.1 := kv.2]> d else d.

Definition fill_defaults (defaults d : dict) : dict :=
  foldl fill_step d (map_to_list defaults).

(** The record built for one (model, dataset, stage) triple of a bunch
    with contents [el]. *)
Definition make_record (defaults el : dict) (m d test_stage : value) : dict :=
  fill_defaults defaults
    (<["dataset_name" := d]> (<["model_name" := m]> (<["test_stage" := test_stage]> el))).

(** What a call does, by cases on the key, the cache and the constructor. *)
Definition get_test_case_outcome (k : result dict) (f : Factories) (σ : state)
  : result (option nat) * state :=
  match k with
  | Raise e => (Raise e, σ)
  | Ok k =>
      if bool_decide (_cache_parameters (_cache (self σ)) = k)
      then (Ok (_cached_value (_cache (self σ))), σ)
      else match tc_init (test_case_class (self σ)) f with
           | Some msg => (Raise (CaseConstructionError msg), σ)
           | None =>
               let n := length (objects σ) in
               (Ok (Some n),
                set_cache {| _cache_parameters := k; _cached_value := Some n |}
                  (set_objects (objects σ ++ [f]) σ))
           end
  end.

(** The bunch passes the [usecase] filter. *)
Definition selected (usecase : value) (el : dict) : bool :=
  negb (bool_decide (usecase ≠ VNone)
        && bool_decide (default VNone (el !! "usecase") ≠ usecase)).

(** The records of one bunch with contents [el], in the order of the loops. *)
Definition bunch_records (stages : list value) (defaults el : dict) : list dict :=
  md ← list_prod (as_sequence (default VNone (el !! "model_name")))
                 (as_sequence (default VNone (el !! "dataset_name")));
  test_stage ← stages;
  [make_record defaults el md.1 md.2 test_stage].

Definition entry_records (usecase : value) (σ : state) (e : entry) : list dict :=
  match e with
  | EDict a =>
      match dicts σ !! a with
      | Some el =>
          if selected usecase el
          then bunch_records (get_list_of_test_stages (test_case_class (self σ)))
                             (default_test_parameters (self σ)) el
          else []
      | None => []
      end
  | EOther _ => []
  end.

(** All the records [get_list_of_tests usecase] builds from the state [σ]. *)
Definition expansion (usecase : value) (σ : state) : list dict :=
  test_bunches (self σ) ≫= entry_records usecase σ.

(** Every bunch is a dict that lives on the heap. *)
Definition bunches_on_heap (σ : state) : Prop :=
  Forall (λ e, match e with
               | EDict a => is_Some (dicts σ !! a)
               | EOther _ => False
               end) (test_bunches (self σ)).

(** [σ'] is [σ] with more dicts allocated: the helper object, the test
    case instances and every dict of [σ] are the same. *)
Definition extends (σ σ' : state) : Prop :=
  self σ' = self σ ∧ objects σ' = objects σ ∧ dicts σ `prefix_of` dicts σ'.

(** A loop body that, for an item [x], allocates the records [recs x] one
    after the other, appends their references and ids to the outputs and
    stops at the first id that cannot be generated. *)
Definition appends {X} (σ0 : state) (P : X → Prop)
    (body : outputs → X → M outputs) (recs : X → list dict) : Prop :=
  ∀ x acc σ, P x → extends σ0 σ →
    match result_map (test_id (short_test_parameters_names_for_generating_id (self σ0)))
                     (recs x) with
    | Ok ids =>
        body acc x σ
        = (Ok (acc.1 ++ seq (length (dicts σ)) (length (recs x)), acc.2 ++ ids),
           set_dicts (dicts σ ++ recs x) σ)
    | Raise e => ∃ σ', body acc x σ = (Raise e, σ') ∧ extends σ σ'
    end.

(** What the caller sees of a run: the returned triple with every
    reference in [argvalues] replaced by the dict it points to.  This is
    what [==] on two returned triples compares. *)
Definition output_contents (run : result (list string * list nat * list string) * state)
  : result (list string * list (option dict) * list string) :=
  match run.1 with
  | Ok (names, argvalues, ids) => Ok (names, (λ a, dicts run.2 !! a) <$> argvalues, ids)
  | Raise e => Raise e
  end.

Definition set_test_bunches (bs : list entry) (σ : state) : state :=
  {| self :=
       {| test_case_class := test_case_class (self σ);
          test_bunches := bs;
          short_test_parameters_names_for_generating_id :=
            short_test_parameters_names_for_generating_id (self σ);
          test_parameters_defining_test_case_behavior :=
            test_parameters_defining_test_case_behavior (self σ);
          default_test_parameters := default_test_parameters (self σ);
          _cache := _cache (self σ) |};
     dicts := dicts σ; objects := objects σ |}.


(** The contents of a bunch that is expanded under the filter [usecase]. *)
Definition selected_bunch (usecase : value) (σ : state) (e : entry) : list dict :=
  match e with
  | EDict a =>
      match dicts σ !! a with
      | Some el => if selected usecase el then [el] else []
      | None => []
      end
  | EOther _ => []
  end.

(** A bunch whose model names or dataset names are an empty sequence. *)
Definition empty_bunch (σ : state) (e : entry) : bool :=
  match e with
  | EDict a =>
      match dicts σ !! a with
      | Some el =>
          bool_decide (as_sequence (default VNone (el !! "model_name")) = []
                       ∨ as_sequence (default VNone (el !! "dataset_name")) = [])
      | None => false
      end
  | EOther _ => false
  end.

(** [el.get('usecase')] of a bunch. *)
Definition bunch_usecase (σ : state) (e : entry) : value :=
  match e with
  | EDict a =>
      match dicts σ !! a with
      | Some el => default VNone (el !! "usecase")
      | None => VNone
      end
  | EOther _ => VNone
  end.

(** The records a run returns (none when it raises). *)
Definition records_of (run : result (list string * list nat * list string) * state)
  : list (option dict) :=
  match output_contents run with
  | Ok (_, records, _) => records
  | Raise _ => []
  end.

Definition comma : ascii := ","%char.

(** No short name and no rendered value of an id key has a comma. *)
Definition comma_free (names : list (string * string)) (d : dict) : Prop :=
  ∀ k sh v, (k, sh) ∈ names → d !! k = Some v →
            string_mem comma sh = false ∧ string_mem comma (py_str v) = false.

(** The number of records a bunch gives under the filter [usecase]. *)
Definition bunch_count (usecase : value) (σ : state) (e : entry) : nat :=
  match e with
  | EDict a =>
      match dicts σ !! a with
      | Some el =>
          if selected usecase el
          then length (as_sequence (default VNone (el !! "model_name")))
               * length (as_sequence (default VNone (el !! "dataset_name")))
               * length (get_list_of_test_stages (test_case_class (self σ)))
          else 0
      | None => 0
      end
  | EOther _ => 0
  end.

(** The keys [get_list_of_tests] writes into every record. *)
Definition expansion_keys : gset string :=
  {["test_stage"; "model_name"; "dataset_name"]}.

(** The number of (model, dataset) pairs of a bunch under the filter
    [usecase]. *)
Definition bunch_pairs (usecase : value) (σ : state) (e : entry) : nat :=
  match e with
  | EDict a =>
      match dicts σ !! a with
      | Some el =>
          if selected usecase el
          then length (as_sequence (default VNone (el !! "model_name")))
               * length (as_sequence (default VNone (el !! "dataset_name")))
          else 0
      | None => 0
      end
  | EOther _ => 0
  end.

(** The cache is well formed: a cached reference points to an instance,
    and a cache that holds [None] has the empty key, as [_Cache.__init__]
    leaves it. *)
Definition cache_ok (σ : state) : Prop :=
  match _cached_value (_cache (self σ)) with
  | Some n => n < length (objects σ)
  | None => _cache_parameters (_cache (self σ)) = ∅
  end.

(** The number of keys of [ks] that differ from the key before them,
    [prev] being the key before the first. *)
Fixpoint key_changes (prev : dict) (ks : list dict) : nat :=
  match ks with
  | [] => 0
  | k :: r => (if decide (prev = k) then 0 else 1) + key_changes k r
  end.

(** Serving the records [recs], in this order and with any factories,
    constructs at most [n] instances. *)
Definition serves (keys : list string) (recs : list dict) (n : nat) : Prop :=
  ∀ calls σ,
    test_parameters_defining_test_case_behavior (self σ) = keys →
    Forall2 (λ c r, dicts σ !! c.1 = Some r) calls recs →
    (length (objects (get_test_case_calls calls σ).2) ≤ length (objects σ) + n)%nat.

(** ** The monad: unfolding and the frame of each operation *)

Ltac in_list :=
  repeat first [apply list_elem_of_here | apply list_elem_of_further].

Ltac munfold :=
  unfold mbind, M_bind, mret, M_ret, bind, ret, gets, modify, raise in *.

Lemma bind_unfold {A B} (m : M A) (f : A → M B) σ :
  (m ≫= f) σ = match m σ with
               | (Ok a, σ') => f a σ'
               | (Raise e, σ') => (Raise e, σ')
               end.
Proof. done. Qed.

Lemma bind_ok {A B} (m : M A) (f : A → M B) σ a σ' :
  m σ = (Ok a, σ') → (m ≫= f) σ = f a σ'.
Proof. munfold. by intros ->. Qed.

Lemma dict_read_ok a d σ : dicts σ !! a = Some d → dict_read a σ = (Ok d, σ).
Proof. unfold dict_read. by intros ->. Qed.

Lemma dict_get_ok a k d σ :
  dicts σ !! a = Some d → dict_get a k σ = (Ok (default VNone (d !! k)), σ).
Proof. intros H. unfold dict_get. by rewrite (bind_ok _ _ _ _ _ (dict_read_ok _ _ _ H)). Qed.

Lemma dict_getitem_ok a k d σ :
  dicts σ !! a = Some d →
  dict_getitem a k σ
  = (match d !! k with Some v => Ok v | None => Raise (KeyError k) end, σ).
Proof.
  intros H. unfold dict_getitem. rewrite (bind_ok _ _ _ _ _ (dict_read_ok _ _ _ H)).
  by destruct (d !! k).
Qed.

Lemma dict_getitem_frame a k σ : (dict_getitem a k σ).2 = σ.
Proof.
  unfold dict_getitem, dict_read. rewrite bind_unfold.
  destruct (dicts σ !! a) as [d |]; [| done]. by destruct (d !! k).
Qed.

Lemma dict_setitem_ok a k v d σ :
  dicts σ !! a = Some d →
  dict_setitem a k v σ = (Ok tt, set_dicts (<[a := <[k := v]> d]> (dicts σ)) σ).
Proof. intros H. unfold dict_setitem. by rewrite (bind_ok _ _ _ _ _ (dict_read_ok _ _ _ H)). Qed.

Lemma deepcopy_ok a d σ :
  dicts σ !! a = Some d →
  deepcopy a σ = (Ok (length (dicts σ)), set_dicts (dicts σ ++ [d]) σ).
Proof. intros H. unfold deepcopy. by rewrite (bind_ok _ _ _ _ _ (dict_read_ok _ _ _ H)). Qed.

(** ** [get_test_case] *)

Lemma dict_comprehension_from acc keys a d σ :
  dicts σ !! a = Some d →
  foldM (λ acc k, v ← dict_getitem a k; ret (<[k := v]> acc)) acc keys σ
  = (project_from acc d keys, σ).
Proof.
  intros Ha. revert acc. induction keys as [| k r IH]; intros acc; simpl; [done |].
  rewrite !bind_unfold, (dict_getitem_ok _ _ _ _ Ha).
  destruct (d !! k) as [v |]; [| done]. apply IH.
Qed.

Lemma dict_comprehension_ok keys a d σ :
  dicts σ !! a = Some d →
  dict_comprehension a keys σ = (case_identity_key keys d, σ).
Proof. apply dict_comprehension_from. Qed.

Lemma dict_comprehension_frame keys a σ : (dict_comprehension a keys σ).2 = σ.
Proof.
  unfold dict_comprehension. generalize (∅ : dict).
  induction keys as [| k r IH]; intros acc; simpl; [done |].
  rewrite !bind_unfold. pose proof (dict_getitem_frame a k σ) as Hfr.
  destruct (dict_getitem a k σ) as [[v | e] σ']; simpl in Hfr; subst σ'; [| done].
  apply IH.
Qed.

Lemma get_test_case_unfold tp f σ :
  get_test_case tp f σ
  = get_test_case_outcome
      (dict_comprehension tp (test_parameters_defining_test_case_behavior (self σ)) σ).1
      f σ.
Proof.
  unfold get_test_case, get_test_case_outcome.
  pose proof (dict_comprehension_frame
                (test_parameters_defining_test_case_behavior (self σ)) tp σ) as Hfr.
  rewrite bind_unfold. unfold gets at 1. rewrite bind_unfold.
  destruct (dict_comprehension tp _ σ) as [[k | e] σ']; simpl in *; subst σ'; [| done].
  unfold Cache_has_same_params, construct, Cache_set, Cache_get. munfold.
  destruct (bool_decide _); simpl; [done |].
  destruct (tc_init _ f); done.
Qed.

Lemma get_test_case_spec tp f d σ :
  dicts σ !! tp = Some d →
  get_test_case tp f σ
  = get_test_case_outcome
      (case_identity_key (test_parameters_defining_test_case_behavior (self σ)) d) f σ.
Proof.
  intros Hd. by rewrite get_test_case_unfold, (dict_comprehension_ok _ _ _ _ Hd).
Qed.

Lemma project_from_missing acc d keys k :
  k ∈ keys → d !! k = None →
  ∃ k', k' ∈ keys ∧ d !! k' = None ∧ project_from acc d keys = Raise (KeyError k').
Proof.
  intros Hin Hk. revert acc. induction keys as [| k0 r IH]; intros acc.
  - by apply elem_of_nil in Hin.
  - simpl. destruct (d !! k0) as [v |] eqn:Hk0.
    + apply elem_of_cons in Hin as [-> | Hin]; [congruence |].
      destruct (IH Hin (<[k0 := v]> acc)) as (k' & ? & ? & ?).
      exists k'. split_and!; [apply elem_of_cons; by right | done | done].
    + exists k0. split_and!; [apply elem_of_cons; by left | done | done].
Qed.

(** ** Properties of [get_test_case] *)

(** C1 (amended): with identity keys [k1, k1, k2, k1], [k1 ≠ k2], on a
    helper whose cache does not hold [k1] and with a constructor that does
    not raise, exactly three test cases are constructed, at the first, third
    and fourth call; the second call returns the instance of the first,
    and the fourth returns a new instance, not the one of the first. *)
Theorem get_test_case_reuse_is_last_key_only
    σ tp1 tp2 tp3 tp4 d1 d2 d3 d4 f1 f2 f3 f4 k1 k2 :
  let keys := test_parameters_defining_test_case_behavior (self σ) in
  let n := length (objects σ) in
  dicts σ !! tp1 = Some d1 → dicts σ !! tp2 = Some d2 →
  dicts σ !! tp3 = Some d3 → dicts σ !! tp4 = Some d4 →
  case_identity_key keys d1 = Ok k1 → case_identity_key keys d2 = Ok k1 →
  case_identity_key keys d3 = Ok k2 → case_identity_key keys d4 = Ok k1 →
  k1 ≠ k2 →
  _cache_parameters (_cache (self σ)) ≠ k1 →
  (∀ f, f ∈ [f1; f3; f4] → tc_init (test_case_class (self σ)) f = None) →
  ∃ σ',
    get_test_case_calls [(tp1, f1); (tp2, f2); (tp3, f3); (tp4, f4)] σ
    = ([Ok (Some n); Ok (Some n); Ok (Some (n + 1)); Ok (Some (n + 2))], σ') ∧
    objects σ' = objects σ ++ [f1; f3; f4] ∧
    _cache (self σ') = {| _cache_parameters := k1; _cached_value := Some (n + 2) |} ∧
    (get_test_case tp1 f1 σ).2 = (get_test_case tp2 f2 (get_test_case tp1 f1 σ).2).2.
Proof.
  intros keys n H1 H2 H3 H4 K1 K2 K3 K4 Hne Hc Hinit.
  assert (tc_init (test_case_class (self σ)) f1 = None) as I1 by (apply Hinit; in_list).
  assert (tc_init (test_case_class (self σ)) f3 = None) as I3 by (apply Hinit; in_list).
  assert (tc_init (test_case_class (self σ)) f4 = None) as I4 by (apply Hinit; in_list).
  unfold get_test_case_calls.
  rewrite (get_test_case_spec tp1 f1 d1 σ H1). fold keys. rewrite K1. simpl.
  rewrite bool_decide_false by done. rewrite I1.
  set (σ1 := set_cache _ (set_objects _ σ)).
  rewrite (get_test_case_spec tp2 f2 d2 σ1 H2). simpl. fold keys. rewrite K2. simpl.
  rewrite bool_decide_true by done.
  rewrite (get_test_case_spec tp3 f3 d3 σ1 H3). simpl. fold keys. rewrite K3. simpl.
  rewrite bool_decide_false by done. rewrite I3.
  set (σ3 := set_cache _ (set_objects _ σ1)).
  rewrite (get_test_case_spec tp4 f4 d4 σ3 H4). simpl. fold keys. rewrite K4. simpl.
  rewrite bool_decide_false by done. rewrite I4.
  eexists. split; [| split_and!]; simpl.
  - rewrite !length_app. simpl. fold n.
    replace (n + 1 + 1) with (n + 2) by lia. reflexivity.
  - by rewrite <- !app_assoc.
  - done.
  - rewrite (get_test_case_spec tp2 f2 d2 σ1 H2). simpl. fold keys. rewrite K2. simpl.
    by rewrite bool_decide_true.
Qed.

(** C2: a call whose constructor raises leaves the whole state, hence the
    cache entry, as it was; a later call with the cached key returns the
    cached instance and constructs nothing. *)
Theorem get_test_case_failed_construction_keeps_cache σ tp f msg :
  (get_test_case tp f σ).1 = Raise (CaseConstructionError msg) →
  (get_test_case tp f σ).2 = σ ∧
  ∀ tp' d' f',
    dicts σ !! tp' = Some d' →
    case_identity_key (test_parameters_defining_test_case_behavior (self σ)) d'
    = Ok (_cache_parameters (_cache (self σ))) →
    get_test_case tp' f' (get_test_case tp f σ).2
    = (Ok (_cached_value (_cache (self σ))), σ).
Proof.
  intros Hraise.
  assert ((get_test_case tp f σ).2 = σ) as Hσ.
  { revert Hraise. rewrite get_test_case_unfold. unfold get_test_case_outcome.
    destruct (dict_comprehension tp _ σ).1 as [k | e]; [| done].
    destruct (bool_decide _); [done |].
    by destruct (tc_init _ f). }
  split; [done |]. intros tp' d' f' Hd' Hk. rewrite Hσ.
  rewrite (get_test_case_spec tp' f' d' σ Hd'), Hk. simpl.
  by rewrite bool_decide_true.
Qed.

(** C9: when the list of parameters defining the test case behaviour is
    empty, the constructor of the helper accepts the parameters, and the
    first call of [get_test_case] returns [None] and changes nothing. *)
Theorem get_test_case_empty_keys_returns_None p :
  cp_test_parameters_defining_test_case_behavior p = [] →
  (∀ k, k ∈ ["test_stage"; "model_name"; "dataset_name"; "usecase"] →
        k ∈ (cp_short_test_parameters_names_for_generating_id p).*1) →
  ∃ h, OTETestHelper_init p = Ok h ∧
       _cache h = Cache_init ∧
       ∀ ds os tp f,
         let σ := {| self := h; dicts := ds; objects := os |} in
         get_test_case tp f σ = (Ok None, σ).
Proof.
  intros Hkeys Hnames. unfold OTETestHelper_init.
  rewrite !bool_decide_true by (apply Hnames; in_list). simpl.
  eexists. split_and!; [done | done |].
  intros ds os tp f. rewrite get_test_case_unfold. simpl. by rewrite Hkeys.
Qed.

(** C10: when the record lacks one of the parameters defining the test
    case behaviour, the call raises [KeyError] for such a key; nothing is
    constructed and the state, the cache included, is unchanged. *)
Theorem get_test_case_missing_key_raises σ tp d f k :
  dicts σ !! tp = Some d →
  k ∈ test_parameters_defining_test_case_behavior (self σ) →
  d !! k = None →
  ∃ k', k' ∈ test_parameters_defining_test_case_behavior (self σ) ∧
        d !! k' = None ∧
        get_test_case tp f σ = (Raise (KeyError k'), σ).
Proof.
  intros Hd Hin Hk.
  destruct (project_from_missing ∅ d _ k Hin Hk) as (k' & Hin' & Hk' & Hp).
  exists k'. split_and!; [done | done |].
  rewrite (get_test_case_spec tp f d σ Hd). unfold case_identity_key. by rewrite Hp.
Qed.

(** ** Default fill-in *)

Lemma set_dicts_id σ : set_dicts (dicts σ) σ = σ.
Proof. by destruct σ. Qed.

Lemma fill_loop_ok a l d σ :
  dicts σ !! a = Some d →
  foldM (λ _ '(key, default_val),
           val ← dict_get a key;
           if needs_default val then dict_setitem a key default_val else ret tt)
        tt l σ
  = (Ok tt, set_dicts (<[a := foldl fill_step d l]> (dicts σ)) σ).
Proof.
  revert d σ. induction l as [| [k dv] r IH]; intros d σ Ha; simpl.
  - by rewrite (list_insert_id _ _ _ Ha), set_dicts_id.
  - rewrite !bind_unfold, (dict_get_ok _ _ _ _ Ha).
    unfold fill_step at 2. simpl.
    destruct (needs_default (default VNone (d !! k))).
    + rewrite (dict_setitem_ok _ _ _ _ _ Ha).
      rewrite (IH (<[k := dv]> d)); simpl.
      * by rewrite list_insert_insert_eq.
      * apply list_lookup_insert_eq. by eapply lookup_lt_Some.
    + unfold ret at 1. by apply IH.
Qed.

Lemma fill_ok a d σ :
  dicts σ !! a = Some d →
  _fill_test_parameters_default_values a σ
  = (Ok tt,
     set_dicts (<[a := fill_defaults (default_test_parameters (self σ)) d]> (dicts σ)) σ).
Proof.
  intros Ha. unfold _fill_test_parameters_default_values.
  rewrite bind_unfold. unfold gets at 1. by apply fill_loop_ok.
Qed.

Lemma fill_steps_lookup (l : list (string * value)) (d : dict) (k : string) :
  NoDup l.*1 →
  foldl fill_step d l !! k
  = match (list_to_map l : dict) !! k with
    | Some dv => if needs_default (default VNone (d !! k)) then Some dv else d !! k
    | None => d !! k
    end.
Proof.
  revert d. induction l as [| [k0 v0] r IH]; intros d Hnd; simpl; [done |].
  apply NoDup_cons in Hnd as [Hk0 Hnd]. rewrite (IH _ Hnd).
  unfold fill_step. simpl. destruct (decide (k0 = k)) as [-> | Hne].
  - rewrite lookup_insert_eq.
    rewrite (not_elem_of_list_to_map_1 r k) by done.
    destruct (needs_default (default VNone (d !! k))); [| done].
    by rewrite lookup_insert_eq.
  - rewrite (lookup_insert_ne _ k0 k) by done.
    destruct (needs_default (default VNone (d !! k0))); [| done].
    by rewrite lookup_insert_ne.
Qed.

Lemma fill_defaults_lookup (defaults d : dict) (k : string) :
  fill_defaults defaults d !! k
  = match defaults !! k with
    | Some dv => if needs_default (default VNone (d !! k)) then Some dv else d !! k
    | None => d !! k
    end.
Proof.
  unfold fill_defaults.
  rewrite fill_steps_lookup by apply NoDup_fst_map_to_list.
  by rewrite list_to_map_to_list.
Qed.

Lemma needs_default_false v :
  v ≠ VNone → v ≠ DEFAULT_FIELD_VALUE_FOR_USING_IN_TEST → needs_default v = false.
Proof. intros. unfold needs_default. by rewrite !bool_decide_false. Qed.

Lemma fill_defaults_is_Some (defaults d : dict) (k : string) :
  is_Some (d !! k) ∨ is_Some (defaults !! k) →
  is_Some (fill_defaults defaults d !! k).
Proof.
  rewrite fill_defaults_lookup. intros [[v Hv] | [dv Hdv]].
  - rewrite Hv. destruct (defaults !! k); [| by eauto].
    destruct (needs_default _); by eauto.
  - rewrite Hdv. destruct (needs_default _) eqn:Hn; [by eauto |].
    destruct (d !! k) as [v |] eqn:Hv; [by eauto |].
    unfold needs_default in Hn. simpl in Hn. discriminate Hn.
Qed.

(** ** Test ids *)

Lemma id_parts_ok a d names σ :
  dicts σ !! a = Some d →
  mapM (λ '(par_name, short_par_name),
          v ← dict_getitem a par_name;
          ret (short_par_name +:+ "-" +:+ py_str v))
       names σ
  = (result_map (id_part d) names, σ).
Proof.
  intros Ha. induction names as [| [k sh] r IH]; simpl; [done |].
  rewrite !bind_unfold, (dict_getitem_ok _ _ _ _ Ha). unfold id_part at 1. simpl.
  destruct (d !! k) as [v |]; simpl; [| done].
  unfold ret at 1. rewrite bind_unfold, IH.
  by destruct (result_map (id_part d) r).
Qed.

Lemma generate_test_id_ok a d σ :
  dicts σ !! a = Some d →
  _generate_test_id a σ
  = (test_id (short_test_parameters_names_for_generating_id (self σ)) d, σ).
Proof.
  intros Ha. unfold _generate_test_id, test_id.
  rewrite bind_unfold. unfold gets at 1. rewrite bind_unfold, (id_parts_ok _ _ _ _ Ha).
  by destruct (result_map _ _).
Qed.

(** ** Matrix expansion *)

Lemma extends_refl σ : extends σ σ.
Proof. by split_and!. Qed.

Lemma extends_trans σ1 σ2 σ3 : extends σ1 σ2 → extends σ2 σ3 → extends σ1 σ3.
Proof.
  intros (? & ? & ?) (? & ? & ?). split_and!; [congruence | congruence |].
  by etrans.
Qed.

Lemma extends_app σ ds : extends σ (set_dicts (dicts σ ++ ds) σ).
Proof. split_and!; [done | done |]. by apply prefix_app_r. Qed.

Lemma extends_lookup σ σ' a d : extends σ σ' → dicts σ !! a = Some d → dicts σ' !! a = Some d.
Proof. intros (_ & _ & Hp) Ha. by eapply prefix_lookup_Some. Qed.

Lemma result_map_app {A B} (f : A → result B) l1 l2 :
  result_map f (l1 ++ l2)
  = result_bind (result_map f l1)
      (λ ys1, result_bind (result_map f l2) (λ ys2, Ok (ys1 ++ ys2))).
Proof.
  induction l1 as [| x r IH]; simpl.
  - by destruct (result_map f l2).
  - destruct (f x) as [y | e]; simpl; [| done]. rewrite IH.
    destruct (result_map f r) as [ys1 | e]; simpl; [| done].
    by destruct (result_map f l2).
Qed.

Lemma appends_foldM {X} σ0 (P : X → Prop) body recs :
  appends σ0 P body recs →
  appends σ0 (Forall P) (λ acc xs, foldM body acc xs) (λ xs, xs ≫= recs).
Proof.
  intros Hb xs. induction xs as [| x r IH]; intros acc σ HP Hext.
  - simpl. unfold ret. destruct acc as [avs ids]. simpl.
    by rewrite !app_nil_r, set_dicts_id.
  - apply Forall_cons in HP as [HPx HPr].
    rewrite bind_cons, result_map_app.
    specialize (Hb x acc σ HPx Hext).
    destruct (result_map _ (recs x)) as [ids1 | e]; simpl.
    + rewrite bind_unfold, Hb.
      specialize (IH (acc.1 ++ seq (length (dicts σ)) (length (recs x)), acc.2 ++ ids1)
                     (set_dicts (dicts σ ++ recs x) σ) HPr
                     (extends_trans _ _ _ Hext (extends_app _ _))).
      destruct (result_map _ (r ≫= recs)) as [ids2 | e]; simpl in *.
      * rewrite IH. rewrite !length_app, seq_app, <- !app_assoc. done.
      * destruct IH as (σ' & -> & Hext'). exists σ'. split; [done |].
        by eapply extends_trans; [apply extends_app |].
    + destruct Hb as (σ' & Hb & Hext'). exists σ'. by rewrite bind_unfold, Hb.
Qed.

Lemma insert_last {A} (l : list A) (x y : A) : <[length l := x]> (l ++ [y]) = l ++ [x].
Proof. rewrite insert_app_r_alt by lia. by rewrite Nat.sub_diag. Qed.

Lemma lookup_last {A} (l : list A) (x : A) : (l ++ [x]) !! length l = Some x.
Proof. by apply list_lookup_middle. Qed.

Lemma setitem_last σ d k v :
  dict_setitem (length (dicts σ)) k v (set_dicts (dicts σ ++ [d]) σ)
  = (Ok tt, set_dicts (dicts σ ++ [<[k := v]> d]) σ).
Proof.
  rewrite (dict_setitem_ok _ _ _ d) by apply lookup_last.
  simpl. by rewrite insert_last.
Qed.

Lemma fill_last σ d :
  _fill_test_parameters_default_values (length (dicts σ)) (set_dicts (dicts σ ++ [d]) σ)
  = (Ok tt,
     set_dicts (dicts σ ++ [fill_defaults (default_test_parameters (self σ)) d]) σ).
Proof.
  rewrite (fill_ok _ d) by apply lookup_last.
  simpl. by rewrite insert_last.
Qed.

Lemma generate_last σ d :
  _generate_test_id (length (dicts σ)) (set_dicts (dicts σ ++ [d]) σ)
  = (test_id (short_test_parameters_names_for_generating_id (self σ)) d,
     set_dicts (dicts σ ++ [d]) σ).
Proof. by rewrite (generate_test_id_ok _ d) by apply lookup_last. Qed.

Lemma stage_body_appends σ0 a el m d :
  dicts σ0 !! a = Some el →
  appends σ0 (λ _, True) (stage_body (EDict a) m d)
    (λ test_stage, [make_record (default_test_parameters (self σ0)) el m d test_stage]).
Proof.
  intros Ha test_stage [avs ids] σ _ Hext.
  pose proof (extends_lookup _ _ _ _ Hext Ha) as Ha'.
  destruct Hext as (Hself & _ & _).
  assert (stage_body (EDict a) m d (avs, ids) test_stage σ
          = (result_bind
               (test_id (short_test_parameters_names_for_generating_id (self σ0))
                  (make_record (default_test_parameters (self σ0)) el m d test_stage))
               (λ id, Ok (avs ++ [length (dicts σ)], ids ++ [id])),
             set_dicts
               (dicts σ ++ [make_record (default_test_parameters (self σ0)) el m d test_stage])
               σ)) as Hrun.
  { unfold stage_body, entry_deepcopy.
    rewrite bind_unfold, (deepcopy_ok _ _ _ Ha').
    rewrite bind_unfold, setitem_last.
    rewrite bind_unfold, setitem_last.
    rewrite bind_unfold, setitem_last.
    rewrite bind_unfold, fill_last.
    rewrite bind_unfold, generate_last, Hself.
    unfold make_record. by destruct (test_id _ _). }
  rewrite Hrun. simpl.
  destruct (test_id _ _) as [id | e]; simpl; [done |].
  eexists. split; [done |]. apply extends_app.
Qed.

Lemma pair_body_appends σ0 a el :
  dicts σ0 !! a = Some el →
  appends σ0 (λ _, True) (pair_body (EDict a))
    (λ md, test_stage ← get_list_of_test_stages (test_case_class (self σ0));
           [make_record (default_test_parameters (self σ0)) el md.1 md.2 test_stage]).
Proof.
  intros Ha [m d] acc σ _ Hext.
  assert (pair_body (EDict a) acc (m, d) σ
          = foldM (stage_body (EDict a) m d) acc
              (get_list_of_test_stages (test_case_class (self σ0))) σ) as ->.
  { destruct Hext as (<- & _ & _). done. }
  exact (appends_foldM σ0 _ _ _ (stage_body_appends σ0 a el m d Ha)
           (get_list_of_test_stages (test_case_class (self σ0))) acc σ
           (Forall_true _ _ (λ _, I)) Hext).
Qed.

Lemma bunch_body_appends σ0 usecase :
  appends σ0 (λ e, match e with
                   | EDict a => is_Some (dicts σ0 !! a)
                   | EOther _ => False
                   end)
    (bunch_body usecase) (entry_records usecase σ0).
Proof.
  intros [a | v] acc σ HP Hext; [| done]. destruct HP as [el Ha].
  pose proof (extends_lookup _ _ _ _ Hext Ha) as Ha'.
  unfold bunch_body, entry_get, entry_records. rewrite Ha.
  rewrite bind_unfold, (dict_get_ok _ _ _ _ Ha').
  rewrite bind_unfold, (dict_get_ok _ _ _ _ Ha').
  rewrite bind_unfold, (dict_get_ok _ _ _ _ Ha').
  unfold selected. destruct (_ && _); simpl.
  - unfold ret. destruct acc. simpl. by rewrite !app_nil_r, set_dicts_id.
  - exact (appends_foldM σ0 _ _ _ (pair_body_appends σ0 a el Ha)
             (list_prod (as_sequence (default VNone (el !! "model_name")))
                        (as_sequence (default VNone (el !! "dataset_name")))) acc σ
             (Forall_true _ _ (λ _, I)) Hext).
Qed.

Lemma bunches_on_heap_all_dicts σ :
  bunches_on_heap σ → forallb is_dict (test_bunches (self σ)) = true.
Proof.
  unfold bunches_on_heap. induction 1 as [| [a | v] r Hx _ IH]; simpl; done.
Qed.

(** The run of [get_list_of_tests] from a well-formed state. *)
Lemma get_list_of_tests_spec usecase σ :
  bunches_on_heap σ →
  match result_map (test_id (short_test_parameters_names_for_generating_id (self σ)))
                   (expansion usecase σ) with
  | Ok ids =>
      get_list_of_tests usecase σ
      = (Ok (argnames, seq (length (dicts σ)) (length (expansion usecase σ)), ids),
         set_dicts (dicts σ ++ expansion usecase σ) σ)
  | Raise e => ∃ σ', get_list_of_tests usecase σ = (Raise e, σ') ∧ extends σ σ'
  end.
Proof.
  intros Hwf.
  assert (get_list_of_tests usecase σ
          = match foldM (bunch_body usecase) ([], []) (test_bunches (self σ)) σ with
            | (Ok (argvalues, ids), σ') => (Ok (argnames, argvalues, ids), σ')
            | (Raise e, σ') => (Raise e, σ')
            end) as ->.
  { unfold get_list_of_tests. rewrite bind_unfold. unfold gets at 1.
    rewrite bind_unfold, (bunches_on_heap_all_dicts _ Hwf). unfold assert, ret at 1.
    rewrite bind_unfold.
    by destruct (foldM _ _ _ σ) as [[[avs ids] | e] σ']. }
  pose proof (appends_foldM σ _ _ _ (bunch_body_appends σ usecase)
                (test_bunches (self σ)) ([], []) σ Hwf (extends_refl σ)) as Hrun.
  cbv beta in Hrun. unfold expansion.
  destruct (result_map _ (test_bunches (self σ) ≫= entry_records usecase σ)) as [ids | e].
  - by rewrite Hrun.
  - destruct Hrun as (σ' & -> & Hext). by exists σ'.
Qed.

Lemma get_list_of_tests_not_dict usecase σ :
  forallb is_dict (test_bunches (self σ)) = false →
  get_list_of_tests usecase σ = (Raise AssertionError, σ).
Proof.
  intros Hnd. unfold get_list_of_tests.
  rewrite bind_unfold. unfold gets at 1. by rewrite bind_unfold, Hnd.
Qed.

Lemma lookup_fresh_seq {A} (l new : list A) :
  (λ a, (l ++ new) !! a) <$> seq (length l) (length new) = Some <$> new.
Proof.
  revert l. induction new as [| x r IH]; intros l; simpl; [done |].
  f_equal.
  - by apply list_lookup_middle.
  - specialize (IH (l ++ [x])). rewrite length_app in IH. simpl in IH.
    rewrite Nat.add_1_r, <- app_assoc in IH. done.
Qed.

(** The contents of the output, from the expansion alone. *)
Lemma run_contents usecase σ :
  bunches_on_heap σ →
  output_contents (get_list_of_tests usecase σ)
  = result_bind
      (result_map (test_id (short_test_parameters_names_for_generating_id (self σ)))
                  (expansion usecase σ))
      (λ ids, Ok (argnames, Some <$> expansion usecase σ, ids)).
Proof.
  intros Hwf. pose proof (get_list_of_tests_spec usecase σ Hwf) as Hrun.
  destruct (result_map _ (expansion usecase σ)) as [ids | e]; simpl.
  - rewrite Hrun. unfold output_contents. simpl. by rewrite lookup_fresh_seq.
  - destruct Hrun as (σ' & -> & _). done.
Qed.

Lemma run_extends usecase σ :
  bunches_on_heap σ → extends σ (get_list_of_tests usecase σ).2.
Proof.
  intros Hwf. pose proof (get_list_of_tests_spec usecase σ Hwf) as Hrun.
  destruct (result_map _ (expansion usecase σ)) as [ids | e].
  - rewrite Hrun. apply extends_app.
  - by destruct Hrun as (σ' & -> & ?).
Qed.

Lemma extends_bunches_on_heap σ σ' :
  extends σ σ' → bunches_on_heap σ → bunches_on_heap σ'.
Proof.
  intros Hext Hwf. unfold bunches_on_heap in *. destruct (Hext) as (-> & _ & _).
  eapply Forall_impl; [exact Hwf |]. intros [a | v]; [| done].
  intros [d Hd]. exists d. by eapply extends_lookup.
Qed.

Lemma extends_expansion usecase σ σ' :
  extends σ σ' → bunches_on_heap σ → expansion usecase σ' = expansion usecase σ.
Proof.
  intros Hext Hwf. unfold expansion. destruct (Hext) as (Hself & _ & _).
  rewrite Hself. unfold bunches_on_heap in Hwf.
  induction Hwf as [| e r He _ IH]; [done |].
  rewrite !bind_cons, IH. f_equal.
  destruct e as [a | v]; [| done]. destruct He as [d Hd]. simpl.
  by rewrite (extends_lookup _ _ _ _ Hext Hd), Hd, Hself.
Qed.

(** ** Properties of [get_list_of_tests] *)

(** C8: a call leaves the helper object (bunch list, naming map, defaults,
    cache), the test case instances and every dict that was on the heap,
    the bunches included, as they were; a second call with the same
    [usecase] returns a triple with the same contents, in the same order
    (and raises the same exception when the first one raises). *)
Theorem get_list_of_tests_pure usecase σ :
  bunches_on_heap σ →
  let run1 := get_list_of_tests usecase σ in
  let run2 := get_list_of_tests usecase run1.2 in
  self run1.2 = self σ ∧
  objects run1.2 = objects σ ∧
  (∀ a d, dicts σ !! a = Some d → dicts run1.2 !! a = Some d) ∧
  output_contents run2 = output_contents run1.
Proof.
  intros Hwf run1 run2.
  pose proof (run_extends usecase σ Hwf) as Hext. fold run1 in Hext.
  pose proof (Hext) as (Hself & Hobj & Hpre).
  split_and!; [done | done | |].
  - intros a d Ha. by eapply extends_lookup.
  - unfold run2, run1.
    rewrite !run_contents by eauto using extends_bunches_on_heap.
    fold run1. by rewrite (extends_expansion _ _ _ Hext Hwf), Hself.
Qed.

Lemma list_prod_bind {A B C} (l1 : list A) (l2 : list B) (f : A * B → list C) :
  list_prod l1 l2 ≫= f = (x ← l1; y ← l2; f (x, y)).
Proof.
  induction l1 as [| x r IH]; [done |].
  cbn [list_prod]. rewrite bind_app, bind_cons, IH. f_equal. clear IH.
  induction l2 as [| y r2 IH2]; [done |].
  cbn [map]. by rewrite !bind_cons, IH2.
Qed.

Lemma result_map_length {A B} (f : A → result B) l ys :
  result_map f l = Ok ys → length ys = length l.
Proof.
  revert ys. induction l as [| x r IH]; intros ys; simpl.
  - by intros [= <-].
  - destruct (f x) as [y | e]; simpl; [| done].
    destruct (result_map f r) as [ys' | e]; simpl; [| done].
    intros [= <-]. simpl. f_equal. by apply IH.
Qed.

Lemma result_map_is_Ok {A B} (f : A → result B) l :
  Forall (λ x, ∃ y, f x = Ok y) l → ∃ ys, result_map f l = Ok ys.
Proof.
  induction 1 as [| x r [y Hy] _ [ys IH]]; simpl; [by eauto |].
  rewrite Hy, IH. simpl. by eauto.
Qed.

Lemma result_map_Ok_inv {A B} (f : A → result B) l ys :
  result_map f l = Ok ys → Forall (λ x, ∃ y, f x = Ok y) l.
Proof.
  revert ys. induction l as [| x r IH]; intros ys; simpl; [by constructor |].
  destruct (f x) as [y | e] eqn:Hx; simpl; [| done].
  destruct (result_map f r) as [ys' | e]; simpl; [| done].
  intros _. constructor; [by eauto | by eapply IH].
Qed.

Lemma test_id_is_Ok names d :
  (∀ k, k ∈ names.*1 → is_Some (d !! k)) → ∃ id, test_id names d = Ok id.
Proof.
  intros Hk. unfold test_id.
  destruct (result_map_is_Ok (id_part d) names) as [parts ->]; [| simpl; by eauto].
  apply Forall_forall. intros [k sh] Hin. unfold id_part. simpl.
  destruct (Hk k) as [v ->]; [| by eauto].
  apply list_elem_of_fmap. by exists (k, sh).
Qed.

Lemma make_record_is_Some defaults el m d test_stage k :
  k ∈ ["test_stage"; "model_name"; "dataset_name"]
  ∨ is_Some (el !! k) ∨ is_Some (defaults !! k) →
  is_Some (make_record defaults el m d test_stage !! k).
Proof.
  intros Hk. apply fill_defaults_is_Some.
  destruct Hk as [Hk | [Hk | Hk]]; [left | left | by right].
  - rewrite !lookup_insert. repeat case_decide; try by eauto.
    exfalso. repeat (apply elem_of_cons in Hk as [? | Hk]; [congruence |]).
    by apply elem_of_nil in Hk.
  - rewrite !lookup_insert. repeat case_decide; by eauto.
Qed.


Lemma bind_singleton {A B} (x : A) (f : A → list B) : [x] ≫= f = f x.
Proof. by rewrite bind_cons, app_nil_r. Qed.

Lemma entry_records_selected usecase σ e :
  entry_records usecase σ e
  = (el ← selected_bunch usecase σ e;
     m ← as_sequence (default VNone (el !! "model_name"));
     d ← as_sequence (default VNone (el !! "dataset_name"));
     test_stage ← get_list_of_test_stages (test_case_class (self σ));
     [make_record (default_test_parameters (self σ)) el m d test_stage]).
Proof.
  destruct e as [a | v]; simpl; [| done].
  destruct (dicts σ !! a) as [el |]; [| done].
  destruct (selected usecase el); [| done].
  rewrite bind_singleton.
  unfold bunch_records. by rewrite list_prod_bind.
Qed.

Lemma run_Ok_contents usecase σ argnames' argvalues ids :
  bunches_on_heap σ →
  (get_list_of_tests usecase σ).1 = Ok (argnames', argvalues, ids) →
  argnames' = argnames ∧
  result_map (test_id (short_test_parameters_names_for_generating_id (self σ)))
             (expansion usecase σ) = Ok ids ∧
  (λ a, dicts (get_list_of_tests usecase σ).2 !! a) <$> argvalues
  = Some <$> expansion usecase σ.
Proof.
  intros Hwf Hrun. pose proof (run_contents usecase σ Hwf) as Hc.
  unfold output_contents in Hc. rewrite Hrun in Hc.
  destruct (result_map _ (expansion usecase σ)) as [ids' | e]; simpl in Hc; [| done].
  by injection Hc as -> -> ->.
Qed.


(** Two runs that build the same records return the same contents. *)
Lemma run_contents_eq u u' σ σ' :
  bunches_on_heap σ → bunches_on_heap σ' →
  short_test_parameters_names_for_generating_id (self σ')
  = short_test_parameters_names_for_generating_id (self σ) →
  expansion u' σ' = expansion u σ →
  output_contents (get_list_of_tests u' σ') = output_contents (get_list_of_tests u σ).
Proof. intros Hwf Hwf' Hn He. by rewrite !run_contents, Hn, He. Qed.

Lemma filter_bunches_on_heap (P : entry → Prop) `{∀ e, Decision (P e)} σ :
  bunches_on_heap σ →
  bunches_on_heap (set_test_bunches (filter P (test_bunches (self σ))) σ).
Proof.
  unfold bunches_on_heap. simpl. intros Hwf.
  apply Forall_forall. intros e He. apply list_elem_of_filter in He as [_ He].
  by eapply Forall_forall in Hwf.
Qed.

(** Bunches that contribute no record can be dropped from the list. *)
Lemma expansion_filter (P : entry → Prop) `{∀ e, Decision (P e)} u u' σ :
  (∀ e, e ∈ test_bunches (self σ) →
        entry_records u σ e = if decide (P e) then entry_records u' σ e else []) →
  expansion u' (set_test_bunches (filter P (test_bunches (self σ))) σ) = expansion u σ.
Proof.
  unfold expansion. simpl.
  change (entry_records u' (set_test_bunches ?bs σ)) with (entry_records u' σ).
  induction (test_bunches (self σ)) as [| e r IH]; intros He; [done |].
  rewrite filter_cons, bind_cons, (He e) by apply list_elem_of_here.
  destruct (decide (P e)).
  - rewrite bind_cons, IH; [done |]. intros e' ?. apply He. by apply list_elem_of_further.
  - rewrite IH; [done |]. intros e' ?. apply He. by apply list_elem_of_further.
Qed.

Lemma list_prod_empty {A B} (l1 : list A) (l2 : list B) :
  l1 = [] ∨ l2 = [] → list_prod l1 l2 = [].
Proof.
  intros [-> | ->]; [done |]. induction l1 as [| x r IH]; [done |]. simpl. exact IH.
Qed.

Lemma empty_bunch_records u σ e : empty_bunch σ e = true → entry_records u σ e = [].
Proof.
  destruct e as [a | v]; simpl; [| done].
  destruct (dicts σ !! a) as [el |]; [| done].
  intros He%bool_decide_eq_true. destruct (selected u el); [| done].
  unfold bunch_records. by rewrite (list_prod_empty _ _ He).
Qed.

(** C4 (amended): a bunch list with an element that is not a dict makes
    the call raise [AssertionError] before anything is built; a bunch
    whose model names or dataset names are an empty sequence is not an
    error: it contributes no record, the output is that of the list
    without such bunches, and when every bunch is such the call returns
    empty lists. *)
Theorem get_list_of_tests_errors usecase σ :
  ((∃ v, EOther v ∈ test_bunches (self σ)) →
   get_list_of_tests usecase σ = (Raise AssertionError, σ)) ∧
  (bunches_on_heap σ →
   output_contents (get_list_of_tests usecase σ)
   = output_contents
       (get_list_of_tests usecase
          (set_test_bunches
             (filter (λ e, empty_bunch σ e = false) (test_bunches (self σ))) σ))) ∧
  (bunches_on_heap σ →
   Forall (λ e, empty_bunch σ e = true) (test_bunches (self σ)) →
   get_list_of_tests usecase σ = (Ok (argnames, [], []), σ)).
Proof.
  split_and!.
  - intros [v Hv]. apply get_list_of_tests_not_dict.
    apply not_true_is_false. intros Hall.
    apply forallb_forall with (x := EOther v) in Hall; [done |].
    by apply list_elem_of_In.
  - intros Hwf. symmetry. apply run_contents_eq; [done | | done |].
    + by apply filter_bunches_on_heap.
    + apply expansion_filter. intros e _. case_decide as He; [done |].
      apply empty_bunch_records. by destruct (empty_bunch σ e).
  - intros Hwf Hall.
    assert (expansion usecase σ = []) as Hexp.
    { unfold expansion. induction Hall as [| e r He _ IH]; [done |].
      by rewrite bind_cons, IH, (empty_bunch_records _ _ _ He). }
    pose proof (get_list_of_tests_spec usecase σ Hwf) as Hrun.
    rewrite Hexp in Hrun. simpl in Hrun.
    by rewrite Hrun, app_nil_r, set_dicts_id.
Qed.

Lemma selected_no_filter el : selected VNone el = true.
Proof. unfold selected. by rewrite bool_decide_false by (intros Hne; by apply Hne). Qed.

Lemma selected_filter u el :
  u ≠ VNone → selected u el = bool_decide (default VNone (el !! "usecase") = u).
Proof.
  intros Hu. unfold selected. rewrite (bool_decide_true (u ≠ VNone)) by done. simpl.
  by rewrite bool_decide_not, negb_involutive.
Qed.

Lemma entry_records_filter u σ e :
  u ≠ VNone →
  entry_records u σ e
  = if decide (bunch_usecase σ e = u) then entry_records VNone σ e else [].
Proof.
  intros Hu. unfold entry_records, bunch_usecase.
  destruct e as [a | v]; [| by case_decide].
  destruct (dicts σ !! a) as [el |]; [| by case_decide].
  rewrite selected_no_filter, (selected_filter _ _ Hu).
  case_decide; [by rewrite bool_decide_true | by rewrite bool_decide_false].
Qed.

Lemma elem_of_expansion u σ d :
  d ∈ expansion u σ ↔ ∃ e, e ∈ test_bunches (self σ) ∧ d ∈ entry_records u σ e.
Proof.
  unfold expansion. rewrite list_elem_of_bind.
  split; intros (e & ? & ?); exists e; done.
Qed.

Lemma records_of_Ok u σ ids :
  bunches_on_heap σ →
  result_map (test_id (short_test_parameters_names_for_generating_id (self σ)))
             (expansion u σ) = Ok ids →
  records_of (get_list_of_tests u σ) = Some <$> expansion u σ.
Proof. intros Hwf Hids. unfold records_of. by rewrite (run_contents _ _ Hwf), Hids. Qed.

(** C7 (amended): with a filter [u] that is not [None], the output is that
    of the unfiltered expansion of the bunches whose [usecase] field equals
    [u]; and when the [usecase] field of every bunch is set (not [None]),
    the records of a successful unfiltered call are exactly those returned
    by the filtered calls, over all [u]. *)
Theorem get_list_of_tests_usecase_filter σ :
  bunches_on_heap σ →
  (∀ u, u ≠ VNone →
     output_contents (get_list_of_tests u σ)
     = output_contents
         (get_list_of_tests VNone
            (set_test_bunches
               (filter (λ e, bunch_usecase σ e = u) (test_bunches (self σ))) σ))) ∧
  (Forall (λ e, bunch_usecase σ e ≠ VNone) (test_bunches (self σ)) →
   ∀ out, (get_list_of_tests VNone σ).1 = Ok out →
   ∀ r, r ∈ records_of (get_list_of_tests VNone σ)
        ↔ ∃ u, u ≠ VNone ∧ r ∈ records_of (get_list_of_tests u σ)).
Proof.
  intros Hwf. split.
  - intros u Hu. symmetry. apply run_contents_eq; [done | | done |].
    + by apply filter_bunches_on_heap.
    + apply expansion_filter. intros e _. by apply entry_records_filter.
  - intros Hset [[names avs] ids] Hrun r.
    destruct (run_Ok_contents _ _ _ _ _ Hwf Hrun) as (_ & Hids & _).
    assert (∀ u d, u ≠ VNone → d ∈ expansion u σ → d ∈ expansion VNone σ) as Hsub.
    { intros u d Hu. rewrite !elem_of_expansion. intros (e & He & Hd).
      exists e. split; [done |]. rewrite (entry_records_filter _ _ _ Hu) in Hd.
      case_decide; [done |]. by apply elem_of_nil in Hd. }
    assert (∀ u, u ≠ VNone →
              records_of (get_list_of_tests u σ) = Some <$> expansion u σ) as Hrec.
    { intros u Hu.
      destruct (result_map_is_Ok
                  (test_id (short_test_parameters_names_for_generating_id (self σ)))
                  (expansion u σ)) as [ids' Hids'].
      - apply result_map_Ok_inv in Hids. rewrite Forall_forall in Hids.
        apply Forall_forall. intros d Hd. apply Hids. by eapply Hsub.
      - by eapply records_of_Ok. }
    rewrite (records_of_Ok _ _ _ Hwf Hids). split.
    + intros (d & -> & Hd)%list_elem_of_fmap.
      apply elem_of_expansion in Hd as (e & He & Hd).
      pose proof (proj1 (Forall_forall _ _) Hset e He) as Hu.
      exists (bunch_usecase σ e). split; [done |].
      rewrite (Hrec _ Hu). apply list_elem_of_fmap_2.
      apply elem_of_expansion. exists e. split; [done |].
      rewrite (entry_records_filter _ _ _ Hu). by rewrite decide_True.
    + intros (u & Hu & Hr). rewrite (Hrec _ Hu) in Hr.
      apply list_elem_of_fmap in Hr as (d & -> & Hd).
      apply list_elem_of_fmap_2. by eapply Hsub.
Qed.

(** ** Properties of the default fill-in and of the test ids *)

(** C6 (amended): for every key of the default values, a record that
    lacks the key, or holds [None] or the placeholder for it, receives the
    default; a record that holds any other value keeps it; the other keys
    of the record are untouched. *)
Theorem fill_test_parameters_default_values_spec σ a d :
  dicts σ !! a = Some d →
  ∃ d',
    _fill_test_parameters_default_values a σ
    = (Ok tt, set_dicts (<[a := d']> (dicts σ)) σ) ∧
    ∀ k,
      match default_test_parameters (self σ) !! k with
      | Some default_val =>
          (d !! k = None ∨ d !! k = Some VNone
           ∨ d !! k = Some DEFAULT_FIELD_VALUE_FOR_USING_IN_TEST →
           d' !! k = Some default_val) ∧
          (∀ v, d !! k = Some v → v ≠ VNone →
                v ≠ DEFAULT_FIELD_VALUE_FOR_USING_IN_TEST → d' !! k = Some v)
      | None => d' !! k = d !! k
      end.
Proof.
  intros Ha. eexists. split; [by apply fill_ok |].
  intros k. rewrite fill_defaults_lookup.
  destruct (default_test_parameters (self σ) !! k) as [dv |]; [| done]. split.
  - intros [-> | [-> | ->]]; simpl; unfold needs_default.
    + done.
    + done.
    + rewrite (bool_decide_true (_ = DEFAULT_FIELD_VALUE_FOR_USING_IN_TEST)) by done.
      by rewrite orb_true_r.
  - intros v -> ??. simpl. by rewrite needs_default_false.
Qed.

Lemma string_mem_app c s1 s2 :
  string_mem c (s1 +:+ s2) = string_mem c s1 || string_mem c s2.
Proof. induction s1 as [| c' r IH]; simpl; [done |]. by rewrite IH, orb_assoc. Qed.

Lemma append_inj_l s t1 t2 : s +:+ t1 = s +:+ t2 → t1 = t2.
Proof. induction s as [| c r IH]; simpl; [done |]. intros [= H]. by apply IH. Qed.

Lemma append_comma_inj x y r1 r2 :
  string_mem comma x = false → string_mem comma y = false →
  x +:+ String comma r1 = y +:+ String comma r2 → x = y ∧ r1 = r2.
Proof.
  revert y. induction x as [| c x IH]; intros [| c' y] Hx Hy Heq;
    cbn [String.append string_mem] in *.
  - by injection Heq as ->.
  - injection Heq as <- _. by rewrite Ascii.eqb_refl in Hy.
  - injection Heq as -> _. by rewrite Ascii.eqb_refl in Hx.
  - injection Heq as -> Heq.
    apply orb_false_elim in Hx as [_ Hx]. apply orb_false_elim in Hy as [_ Hy].
    destruct (IH y Hx Hy Heq) as [-> ->]. done.
Qed.

Lemma join_comma_inj l1 l2 :
  length l1 = length l2 →
  Forall (λ s, string_mem comma s = false) l1 →
  Forall (λ s, string_mem comma s = false) l2 →
  join "," l1 = join "," l2 → l1 = l2.
Proof.
  revert l2. induction l1 as [| x r IH]; intros [| y r2] Hlen H1 H2 Heq; try done.
  apply Forall_cons in H1 as [Hx H1]. apply Forall_cons in H2 as [Hy H2].
  injection Hlen as Hlen.
  destruct r as [| x' r]; destruct r2 as [| y' r2]; try done.
  - simpl in Heq. by subst.
  - unfold join in *. cbn [String.concat] in Heq.
    change ("," +:+ ?s) with (String comma s) in Heq.
    destruct (append_comma_inj _ _ _ _ Hx Hy Heq) as [-> Hrest].
    f_equal. by apply IH.
Qed.

Lemma id_parts_ext names d1 d2 :
  (∀ k, k ∈ names.*1 → d1 !! k = d2 !! k) →
  result_map (id_part d1) names = result_map (id_part d2) names.
Proof.
  induction names as [| [k sh] r IH]; intros Hk; simpl; [done |].
  unfold id_part at 1 3. simpl. rewrite (Hk k) by apply list_elem_of_here.
  rewrite IH; [done |]. intros k' ?. apply Hk. by apply list_elem_of_further.
Qed.

Lemma id_parts_same_values names d1 d2 parts :
  result_map (id_part d1) names = Ok parts →
  result_map (id_part d2) names = Ok parts →
  ∀ k v1 v2, k ∈ names.*1 → d1 !! k = Some v1 → d2 !! k = Some v2 →
             py_str v1 = py_str v2.
Proof.
  revert parts. induction names as [| [k0 sh0] r IH]; intros parts H1 H2 k v1 v2 Hk Hv1 Hv2.
  - by apply elem_of_nil in Hk.
  - simpl in H1, H2. unfold id_part at 1 in H1. unfold id_part at 1 in H2. simpl in *.
    destruct (d1 !! k0) as [w1 |] eqn:Hw1; simpl in H1; [| done].
    destruct (d2 !! k0) as [w2 |] eqn:Hw2; simpl in H2; [| done].
    destruct (result_map (id_part d1) r) as [ps1 |] eqn:Hr1; simpl in H1; [| done].
    destruct (result_map (id_part d2) r) as [ps2 |] eqn:Hr2; simpl in H2; [| done].
    injection H1 as <-. injection H2 as Hp <-.
    apply elem_of_cons in Hk as [-> | Hk].
    + apply append_inj_l in Hp. apply (append_inj_l "-") in Hp. congruence.
    + by eapply (IH ps2).
Qed.

Lemma id_parts_comma_free names d parts :
  comma_free names d →
  result_map (id_part d) names = Ok parts →
  Forall (λ s, string_mem comma s = false) parts.
Proof.
  revert parts. induction names as [| [k sh] r IH]; intros parts Hcf Hp; simpl in Hp.
  - injection Hp as <-. constructor.
  - unfold id_part at 1 in Hp. simpl in Hp.
    destruct (d !! k) as [v |] eqn:Hv; simpl in Hp; [| done].
    destruct (result_map (id_part d) r) as [ps |] eqn:Hr; simpl in Hp; [| done].
    injection Hp as <-. constructor.
    + destruct (Hcf k sh v (list_elem_of_here _ _) Hv) as [Hsh Hval].
      rewrite !string_mem_app, Hsh, Hval. done.
    + apply IH; [| done]. intros k' sh' v' Hin. apply Hcf. by apply list_elem_of_further.
Qed.

Lemma test_id_Ok_inv names d id :
  test_id names d = Ok id →
  ∃ parts, result_map (id_part d) names = Ok parts ∧ id = join "," parts.
Proof.
  unfold test_id. destruct (result_map (id_part d) names) as [parts | e]; simpl; [| done].
  intros [= <-]. by exists parts.
Qed.

(** C5 (amended): two records that agree on every key of the id naming
    map get the same id, whatever their other keys hold; two records whose
    values for some id key are rendered differently get different ids,
    provided no short name and no rendered value has a comma; and the id
    is the short-name/value pairs in the order of the naming map, joined by
    commas. *)
Theorem generate_test_id_spec σ a1 a2 d1 d2 :
  dicts σ !! a1 = Some d1 → dicts σ !! a2 = Some d2 →
  let names := short_test_parameters_names_for_generating_id (self σ) in
  ((∀ k, k ∈ names.*1 → d1 !! k = d2 !! k) →
   _generate_test_id a1 σ = _generate_test_id a2 σ) ∧
  (∀ id1 id2 k v1 v2,
     (_generate_test_id a1 σ).1 = Ok id1 → (_generate_test_id a2 σ).1 = Ok id2 →
     k ∈ names.*1 → d1 !! k = Some v1 → d2 !! k = Some v2 →
     py_str v1 ≠ py_str v2 →
     comma_free names d1 → comma_free names d2 →
     id1 ≠ id2) ∧
  (∀ vs, Forall2 (λ kn v, d1 !! kn.1 = Some v) names vs →
         _generate_test_id a1 σ
         = (Ok (join "," (zip_with (λ kn v, kn.2 +:+ "-" +:+ py_str v) names vs)), σ)).
Proof.
  intros H1 H2 names.
  rewrite (generate_test_id_ok _ _ _ H1), (generate_test_id_ok _ _ _ H2). fold names.
  split_and!.
  - intros Hk. unfold test_id. by rewrite (id_parts_ext _ _ _ Hk).
  - simpl. intros id1 id2 k v1 v2 Hid1 Hid2 Hk Hv1 Hv2 Hne Hcf1 Hcf2 Heq. subst id2.
    apply test_id_Ok_inv in Hid1 as (ps1 & Hp1 & ->).
    apply test_id_Ok_inv in Hid2 as (ps2 & Hp2 & Hj).
    assert (ps1 = ps2) as <-.
    { apply join_comma_inj.
      - apply result_map_length in Hp1, Hp2. congruence.
      - exact (id_parts_comma_free names d1 ps1 Hcf1 Hp1).
      - exact (id_parts_comma_free names d2 ps2 Hcf2 Hp2).
      - done. }
    apply Hne. by eapply (id_parts_same_values names d1 d2 ps1).
  - intros vs Hvs. f_equal. unfold test_id.
    assert (result_map (id_part d1) names
            = Ok (zip_with (λ kn v, kn.2 +:+ "-" +:+ py_str v) names vs)) as ->; [| done].
    induction Hvs as [| [k sh] v r vs' Hv _ IH]; simpl; [done |].
    unfold id_part at 1. simpl in *. by rewrite Hv, IH.
Qed.

(** ** Further properties of the matrix expansion *)

Lemma length_list_bind {A B} (f : A → list B) (l : list A) :
  length (l ≫= f) = sum_list (length ∘ f <$> l).
Proof.
  induction l as [| x r IH]; [done |].
  rewrite bind_cons, length_app, IH. done.
Qed.

Lemma length_bunch_records stages defaults el :
  length (bunch_records stages defaults el)
  = length (as_sequence (default VNone (el !! "model_name")))
    * length (as_sequence (default VNone (el !! "dataset_name")))
    * length stages.
Proof.
  unfold bunch_records. rewrite length_list_bind.
  rewrite <- (length_prod (as_sequence (default VNone (el !! "model_name")))).
  induction (list_prod _ _) as [| md r IH]; [done |].
  cbn [fmap list_fmap sum_list_with length]. rewrite IH.
  assert (∀ l : list value,
            length (l ≫= λ s, [make_record defaults el md.1 md.2 s]) = length l) as Hl.
  { intros l. induction l as [| s l' IHl]; [done |]. rewrite bind_cons. simpl. by rewrite IHl. }
  unfold compose at 1. rewrite Hl. unfold id. lia.
Qed.

Lemma length_expansion usecase σ :
  length (expansion usecase σ) = sum_list (bunch_count usecase σ <$> test_bunches (self σ)).
Proof.
  unfold expansion. rewrite length_list_bind. f_equal.
  apply list_fmap_ext. intros _ e _. unfold compose, bunch_count, entry_records.
  destruct e as [a | v]; [| done]. destruct (dicts σ !! a) as [el |]; [| done].
  destruct (selected usecase el); [| done]. apply length_bunch_records.
Qed.

(** X3: on success, [argnames] is the one-element tuple
    [("test_parameters",)], [argvalues] and [ids] have the same length, and
    this length is the sum over the bunches that pass the filter of
    (number of models) x (number of datasets) x (number of stages), where a
    scalar or absent [model_name] or [dataset_name] counts for one. *)
Theorem get_list_of_tests_count usecase σ names argvalues ids :
  bunches_on_heap σ →
  (get_list_of_tests usecase σ).1 = Ok (names, argvalues, ids) →
  names = ["test_parameters"] ∧
  length ids = length argvalues ∧
  length argvalues = sum_list (bunch_count usecase σ <$> test_bunches (self σ)).
Proof.
  intros Hwf Hrun.
  destruct (run_Ok_contents _ _ _ _ _ Hwf Hrun) as (-> & Hids & Hrecs).
  apply result_map_length in Hids. apply (f_equal length) in Hrecs.
  rewrite !length_fmap in Hrecs. rewrite <- length_expansion.
  split_and!; [done | congruence | done].
Qed.

(** X4: on success, the references in [argvalues] are the consecutive new
    addresses: they are pairwise distinct, none of them existed before the
    call (so no record is a bunch, or a dict handed out earlier), and the
    heap has grown by exactly one dict per record. *)
Theorem get_list_of_tests_fresh_records usecase σ names argvalues ids :
  bunches_on_heap σ →
  (get_list_of_tests usecase σ).1 = Ok (names, argvalues, ids) →
  argvalues = seq (length (dicts σ)) (length argvalues) ∧
  NoDup argvalues ∧
  (∀ a, a ∈ argvalues → dicts σ !! a = None
                        ∧ is_Some (dicts (get_list_of_tests usecase σ).2 !! a)) ∧
  length (dicts (get_list_of_tests usecase σ).2) = length (dicts σ) + length argvalues.
Proof.
  intros Hwf Hrun. pose proof (get_list_of_tests_spec usecase σ Hwf) as Hspec.
  destruct (result_map _ (expansion usecase σ)) as [ids' | e].
  - rewrite Hspec in Hrun |- *. simpl in *. injection Hrun as <- <- <-.
    rewrite length_seq. split_and!; [done | apply NoDup_seq | | by rewrite length_app].
    intros a [Hge Hlt]%elem_of_seq. split.
    + by apply lookup_ge_None.
    + apply lookup_lt_is_Some. rewrite length_app. lia.
  - destruct Hspec as (σ' & Hspec & _). by rewrite Hspec in Hrun.
Qed.

Lemma elem_of_expansion_inv usecase σ r :
  r ∈ expansion usecase σ →
  ∃ a el m d test_stage,
    EDict a ∈ test_bunches (self σ) ∧ dicts σ !! a = Some el ∧
    selected usecase el = true ∧
    m ∈ as_sequence (default VNone (el !! "model_name")) ∧
    d ∈ as_sequence (default VNone (el !! "dataset_name")) ∧
    test_stage ∈ get_list_of_test_stages (test_case_class (self σ)) ∧
    r = make_record (default_test_parameters (self σ)) el m d test_stage.
Proof.
  intros (e & He & Hr)%elem_of_expansion.
  rewrite entry_records_selected in Hr.
  apply list_elem_of_bind in Hr as (el & Hr & Hel).
  apply list_elem_of_bind in Hr as (m & Hr & Hm).
  apply list_elem_of_bind in Hr as (d & Hr & Hd).
  apply list_elem_of_bind in Hr as (s & Hr & Hs).
  apply list_elem_of_singleton in Hr as ->.
  destruct e as [a | v]; simpl in Hel; [| by apply elem_of_nil in Hel].
  destruct (dicts σ !! a) as [el' |] eqn:Ha; [| by apply elem_of_nil in Hel].
  destruct (selected usecase el') eqn:Hsel; [| by apply elem_of_nil in Hel].
  apply list_elem_of_singleton in Hel as ->.
  by exists a, el', m, d, s.
Qed.

Lemma dom_fill_defaults (defaults d : dict) :
  dom (fill_defaults defaults d) = dom d ∪ dom defaults.
Proof.
  apply set_eq. intros k. rewrite elem_of_union, !elem_of_dom. split.
  - rewrite fill_defaults_lookup. destruct (defaults !! k) as [dv |]; [| by left].
    intros _. right. by eauto.
  - intros [H | H]; apply fill_defaults_is_Some; [by left | by right].
Qed.

Lemma dom_make_record defaults el m d test_stage :
  dom (make_record defaults el m d test_stage) = dom el ∪ expansion_keys ∪ dom defaults.
Proof.
  unfold make_record, expansion_keys. rewrite dom_fill_defaults, !dom_insert_L.
  apply set_eq. intros k. rewrite !elem_of_union, !elem_of_singleton. tauto.
Qed.

Lemma make_record_pass_through defaults el m d test_stage k :
  k ∉ expansion_keys → defaults !! k = None →
  make_record defaults el m d test_stage !! k = el !! k.
Proof.
  intros Hk Hd. unfold make_record. rewrite fill_defaults_lookup, Hd.
  unfold expansion_keys in Hk.
  rewrite !not_elem_of_union, !not_elem_of_singleton in Hk. destruct Hk as ((? & ?) & ?).
  by rewrite !lookup_insert_ne by congruence.
Qed.

Lemma test_id_Ok_keys names d id :
  test_id names d = Ok id → ∀ k, k ∈ names.*1 → is_Some (d !! k).
Proof.
  intros (parts & Hparts & _)%test_id_Ok_inv k Hk.
  apply result_map_Ok_inv in Hparts. rewrite Forall_forall in Hparts.
  apply list_elem_of_fmap in Hk as ([k' sh] & -> & Hin).
  destruct (Hparts _ Hin) as [p Hp]. unfold id_part in Hp. simpl in *.
  by destruct (d !! k').
Qed.

(** X5: every record of a successful call comes from a bunch that passes
    the filter; its keys are exactly the keys of that bunch, the three keys
    [test_stage], [model_name], [dataset_name] and the keys of the default
    values; every key of the bunch that is neither one of the three nor a
    default key is passed through with its value; and the record has every
    key of the id naming map. *)
Theorem get_list_of_tests_record_keys usecase σ out r :
  bunches_on_heap σ →
  (get_list_of_tests usecase σ).1 = Ok out →
  Some r ∈ records_of (get_list_of_tests usecase σ) →
  ∃ a el,
    EDict a ∈ test_bunches (self σ) ∧ dicts σ !! a = Some el ∧
    selected usecase el = true ∧
    dom r = dom el ∪ expansion_keys ∪ dom (default_test_parameters (self σ)) ∧
    (∀ k, k ∉ expansion_keys → default_test_parameters (self σ) !! k = None →
          r !! k = el !! k) ∧
    (∀ k, k ∈ (short_test_parameters_names_for_generating_id (self σ)).*1 →
          is_Some (r !! k)).
Proof.
  intros Hwf Hrun Hr. destruct out as [[names avs] ids].
  destruct (run_Ok_contents _ _ _ _ _ Hwf Hrun) as (_ & Hids & _).
  rewrite (records_of_Ok _ _ _ Hwf Hids) in Hr.
  apply list_elem_of_fmap in Hr as (r' & [= <-] & Hr).
  destruct (elem_of_expansion_inv _ _ _ Hr) as (a & el & m & d & s & Ha & Hel & Hsel & _ & _ & _ & ->).
  exists a, el. split_and!; [done | done | done | | |].
  - apply dom_make_record.
  - intros k ??. by apply make_record_pass_through.
  - apply result_map_Ok_inv in Hids. rewrite Forall_forall in Hids.
    destruct (Hids _ Hr) as [id Hid]. by eapply test_id_Ok_keys.
Qed.

(** ** Further properties of the ids, the default fill-in and the constructor *)

Lemma id_parts_first_missing d pre k sh post :
  (∀ k', k' ∈ pre.*1 → is_Some (d !! k')) → d !! k = None →
  result_map (id_part d) (pre ++ (k, sh) :: post) = Raise (KeyError k).
Proof.
  intros Hpre Hk. rewrite result_map_app.
  destruct (result_map_is_Ok (id_part d) pre) as [ps ->].
  { apply Forall_forall. intros [k' sh'] Hin. unfold id_part. simpl.
    destruct (Hpre k') as [v ->]; [| by eauto].
    apply list_elem_of_fmap. by exists (k', sh'). }
  simpl. unfold id_part at 1. simpl. by rewrite Hk.
Qed.

(** X6: [_generate_test_id] returns an id exactly when the record has every
    key of the naming map; otherwise it raises [KeyError] for the first key
    of the map, in the order of the map, that the record lacks.  In both
    cases the state is unchanged. *)
Theorem generate_test_id_errors σ a d :
  dicts σ !! a = Some d →
  let names := short_test_parameters_names_for_generating_id (self σ) in
  ((∃ id, _generate_test_id a σ = (Ok id, σ)) ↔ ∀ k, k ∈ names.*1 → is_Some (d !! k)) ∧
  (∀ pre k sh post,
     names = pre ++ (k, sh) :: post →
     (∀ k', k' ∈ pre.*1 → is_Some (d !! k')) → d !! k = None →
     _generate_test_id a σ = (Raise (KeyError k), σ)).
Proof.
  intros Ha names. rewrite (generate_test_id_ok _ _ _ Ha). fold names. split.
  - split.
    + intros [id [= Hid]]. by eapply test_id_Ok_keys.
    + intros Hk. destruct (test_id_is_Ok names d Hk) as [id ->]. by eauto.
  - intros pre k sh post Hn Hpre Hk. unfold test_id.
    by rewrite Hn, (id_parts_first_missing _ _ _ _ _ Hpre Hk).
Qed.

Lemma fill_defaults_idempotent (defaults d : dict) :
  fill_defaults defaults (fill_defaults defaults d) = fill_defaults defaults d.
Proof.
  apply map_eq. intros k. rewrite (fill_defaults_lookup defaults (fill_defaults _ _)).
  rewrite fill_defaults_lookup.
  destruct (defaults !! k) as [dv |]; [| done].
  destruct (needs_default (default VNone (d !! k))) eqn:Hn; simpl.
  - by destruct (needs_default dv).
  - by rewrite Hn.
Qed.

(** X7: the default fill-in changes only the dict it is given; it never
    removes a key (the keys afterwards are those before together with the
    default keys); and it is idempotent: a second run on the same dict
    changes nothing. *)
Theorem fill_test_parameters_default_values_idempotent σ a d :
  dicts σ !! a = Some d →
  ∃ d',
    _fill_test_parameters_default_values a σ
    = (Ok tt, set_dicts (<[a := d']> (dicts σ)) σ) ∧
    dom d' = dom d ∪ dom (default_test_parameters (self σ)) ∧
    _fill_test_parameters_default_values a (set_dicts (<[a := d']> (dicts σ)) σ)
    = (Ok tt, set_dicts (<[a := d']> (dicts σ)) σ).
Proof.
  intros Ha. exists (fill_defaults (default_test_parameters (self σ)) d).
  split_and!; [by apply fill_ok | apply dom_fill_defaults |].
  rewrite (fill_ok _ (fill_defaults (default_test_parameters (self σ)) d)).
  - simpl. by rewrite fill_defaults_idempotent, list_insert_insert_eq.
  - simpl. apply list_lookup_insert_eq. by eapply lookup_lt_Some.
Qed.

(** ** The constructor on untyped outputs *)

Lemma check_Constructed b rest h :
  check b rest = Constructed h ↔ b = true ∧ rest = Constructed h.
Proof. destruct b; simpl; intuition congruence. Qed.

Lemma check_TypeError b rest :
  check b rest = RaisedTypeError ↔ b = true ∧ rest = RaisedTypeError.
Proof. destruct b; simpl; intuition congruence. Qed.

Lemma isinstance_str_VStr v : isinstance_str v = true → VStr (str_of v) = v.
Proof. by destruct v. Qed.

Lemma strs_back l :
  forallb isinstance_str l = true → VStr <$> (str_of <$> l) = l.
Proof.
  induction l as [| v r IH]; [done |]. intros H. simpl in H.
  apply andb_prop in H as [Hv Hr]. rewrite !fmap_cons.
  f_equal; [by apply isinstance_str_VStr | by apply IH].
Qed.

Lemma names_back items :
  forallb (λ kv, isinstance_str kv.1 && isinstance_str kv.2) items = true →
  (λ kn : string * string, (VStr kn.1, VStr kn.2))
    <$> ((λ kv : value * value, (str_of kv.1, str_of kv.2)) <$> items) = items.
Proof.
  induction items as [| [k v] r IH]; [done |]. intros H. simpl in H.
  apply andb_prop in H as [[Hk Hv]%andb_prop Hr]. rewrite !fmap_cons. simpl.
  by rewrite (isinstance_str_VStr k Hk), (isinstance_str_VStr v Hv), (IH Hr).
Qed.

Lemma defaults_back items :
  forallb (λ kv : value * value, isinstance_str kv.1) items = true →
  (λ kv : string * value, (VStr kv.1, kv.2))
    <$> ((λ kv : value * value, (str_of kv.1, kv.2)) <$> items) = items.
Proof.
  induction items as [| [k v] r IH]; [done |]. intros H. simpl in H.
  apply andb_prop in H as [Hk Hr]. rewrite !fmap_cons. simpl.
  by rewrite (isinstance_str_VStr k Hk), (IH Hr).
Qed.

Lemma strs_forth (l : list string) :
  forallb isinstance_str (VStr <$> l) = true ∧ str_of <$> (VStr <$> l) = l.
Proof.
  induction l as [| s r [IH1 IH2]]; [done |]. rewrite !fmap_cons. simpl.
  by rewrite IH1, IH2.
Qed.

Lemma names_forth (names : list (string * string)) :
  forallb (λ kv, isinstance_str kv.1 && isinstance_str kv.2)
    ((λ kn, (VStr kn.1, VStr kn.2)) <$> names) = true ∧
  (λ kv : value * value, (str_of kv.1, str_of kv.2))
    <$> ((λ kn : string * string, (VStr kn.1, VStr kn.2)) <$> names) = names.
Proof.
  induction names as [| [k sh] r [IH1 IH2]]; [done |]. rewrite !fmap_cons. simpl.
  by rewrite IH1, IH2.
Qed.

Lemma defaults_forth (items : list (string * value)) :
  forallb (λ kv : value * value, isinstance_str kv.1)
    ((λ kv, (VStr kv.1, kv.2)) <$> items) = true ∧
  (λ kv : value * value, (str_of kv.1, kv.2))
    <$> ((λ kv : string * value, (VStr kv.1, kv.2)) <$> items) = items.
Proof.
  induction items as [| [k v] r [IH1 IH2]]; [done |]. rewrite !fmap_cons. simpl.
  by rewrite IH1, IH2.
Qed.

Lemma elem_of_names_keys k (names : list (string * string)) :
  VStr k ∈ ((λ kn, (VStr kn.1, VStr kn.2)) <$> names).*1 ↔ k ∈ names.*1.
Proof.
  induction names as [| [k0 sh] r IH].
  - split; intros H; by apply elem_of_nil in H.
  - rewrite !fmap_cons. simpl. rewrite !elem_of_cons, IH.
    split; intros [H | H]; try (by right).
    + left. by injection H.
    + left. by rewrite H.
Qed.

Lemma OTETestHelper_init_Ok p h :
  OTETestHelper_init p = Ok h ↔
  (∀ k, k ∈ ["test_stage"; "model_name"; "dataset_name"; "usecase"] →
        k ∈ (cp_short_test_parameters_names_for_generating_id p).*1) ∧
  h = {| test_case_class := cp_test_case_class p;
         test_bunches := cp_test_bunches p;
         short_test_parameters_names_for_generating_id :=
           cp_short_test_parameters_names_for_generating_id p;
         test_parameters_defining_test_case_behavior :=
           cp_test_parameters_defining_test_case_behavior p;
         default_test_parameters := cp_default_test_parameters p;
         _cache := Cache_init |}.
Proof.
  unfold OTETestHelper_init.
  set (names := cp_short_test_parameters_names_for_generating_id p).
  split.
  - destruct (bool_decide ("test_stage" ∈ names.*1)) eqn:H1; [| done].
    destruct (bool_decide ("model_name" ∈ names.*1)) eqn:H2; [| done].
    destruct (bool_decide ("dataset_name" ∈ names.*1)) eqn:H3; [| done].
    destruct (bool_decide ("usecase" ∈ names.*1)) eqn:H4; [| done].
    simpl. intros [= <-]. split; [| done].
    apply bool_decide_eq_true in H1, H2, H3, H4.
    intros k Hk. repeat (apply elem_of_cons in Hk as [-> | Hk]); try done.
    by apply elem_of_nil in Hk.
  - intros [Hall ->]. by rewrite !bool_decide_true by (apply Hall; in_list).
Qed.

(** X1: [__init__] on whatever an interface hands out.  It returns a
    helper exactly when the argument is an interface whose outputs keep to
    the annotations (a test case class, an [OrderedDict] from [str] to
    [str], a list of [str], a dict with [str] keys) and whose naming map has
    the keys [test_stage], [model_name], [dataset_name] and [usecase]; the
    helper is then the one of the typed constructor, with the outputs as
    they are and an empty cache, whatever the test bunches are.  It raises
    [TypeError] exactly when the argument is an interface whose test case
    class is not a class, whatever else is wrong with the outputs; every
    other argument gets [AssertionError]. *)
Theorem OTETestHelper_init_validation arg :
  (∀ h, OTETestHelper___init__ arg = Constructed h ↔
        ∃ o p, arg = AnInterface o ∧ presents o p ∧ OTETestHelper_init p = Ok h) ∧
  (OTETestHelper___init__ arg = RaisedTypeError ↔
   ∃ o, arg = AnInterface o ∧ out_test_case_class o = NotAClass) ∧
  (OTETestHelper___init__ arg = RaisedAssertionError ↔
   (∀ h, OTETestHelper___init__ arg ≠ Constructed h) ∧
   ∀ o, arg = AnInterface o → out_test_case_class o ≠ NotAClass).
Proof.
  split_and!.
  - intros h. split.
    + destruct arg as [| o]; [done |]. unfold OTETestHelper___init__.
      destruct o as [cls bunches names keys defaults]. simpl.
      destruct cls as [| | cls]; [done | done |].
      rewrite !check_Constructed.
      intros (Hod & Hstr & H1 & H2 & H3 & H4 & Hlist & Hkstr & Hdict & Hdstr & Hh).
      destruct names as [v | [|] names]; [done | done |].
      destruct keys as [[| | | keys |] | ]; try done.
      destruct defaults as [v | c defaults]; [done |].
      simpl in *. injection Hh as <-.
      apply bool_decide_eq_true in H1, H2, H3, H4.
      eexists _,
        {| cp_test_case_class := cls;
           cp_test_bunches := bunches;
           cp_short_test_parameters_names_for_generating_id :=
             (λ kv, (str_of kv.1, str_of kv.2)) <$> names;
           cp_test_parameters_defining_test_case_behavior := str_of <$> keys;
           cp_default_test_parameters :=
             list_to_map ((λ kv, (str_of kv.1, kv.2)) <$> defaults) |}.
      split; [done |]. split.
      * unfold presents. simpl. split_and!; [done | done | | |].
        -- by rewrite (names_back names Hstr).
        -- by rewrite (strs_back keys Hkstr).
        -- exists c, ((λ kv, (str_of kv.1, kv.2)) <$> defaults).
           by rewrite (defaults_back defaults Hdstr).
      * apply OTETestHelper_init_Ok. simpl. split; [| done].
        intros k Hk. apply elem_of_names_keys. rewrite (names_back names Hstr).
        repeat (apply elem_of_cons in Hk as [-> | Hk]); try done.
        by apply elem_of_nil in Hk.
    + intros (o & p & -> & (Hcls & Hb & Hn & Hk & c & items & Hd & Hp) & Hinit).
      apply OTETestHelper_init_Ok in Hinit as [Hall ->].
      unfold OTETestHelper___init__. rewrite Hcls, Hn, Hk, Hd. simpl.
      destruct (names_forth (cp_short_test_parameters_names_for_generating_id p))
        as [Hn1 Hn2].
      destruct (strs_forth (cp_test_parameters_defining_test_case_behavior p))
        as [Hk1 Hk2].
      destruct (defaults_forth items) as [Hd1 Hd2].
      rewrite Hn1, Hk1, Hd1, Hn2, Hk2, Hd2.
      rewrite !bool_decide_true by (apply elem_of_names_keys, Hall; in_list).
      simpl. by rewrite Hb, Hp.
  - split.
    + destruct arg as [| o]; [done |]. unfold OTETestHelper___init__.
      destruct (out_test_case_class o) as [| | cls] eqn:Hcls; [by eauto | done |].
      rewrite !check_TypeError. intros Hr. decompose [and] Hr. discriminate.
    + intros (o & -> & Hcls). unfold OTETestHelper___init__. by rewrite Hcls.
  - split.
    + intros Hr. split; [intros h; by rewrite Hr |].
      intros o ->. intros Hcls. unfold OTETestHelper___init__ in Hr. by rewrite Hcls in Hr.
    + intros [Hnot Hcls].
      destruct (OTETestHelper___init__ arg) as [h | |] eqn:Hr; [by destruct (Hnot h) | done |].
      exfalso. destruct arg as [| o]; [done |]. apply (Hcls o eq_refl).
      unfold OTETestHelper___init__ in Hr.
      destruct (out_test_case_class o) as [| | cls]; [done | done |].
      rewrite !check_TypeError in Hr. decompose [and] Hr. discriminate.
Qed.

Lemma default_record_id_Ok el m d test_stage :
  is_Some (el !! "num_training_iters") → is_Some (el !! "usecase") →
  ∃ id, test_id DEFAULT_SHORT_TEST_PARAMETERS_NAMES_FOR_GENERATING_ID
          (make_record DEFAULT_TEST_PARAMETERS el m d test_stage) = Ok id.
Proof.
  intros Hn Hu. apply test_id_is_Ok. intros k Hk. apply make_record_is_Some.
  cbn in Hk.
  repeat (apply elem_of_cons in Hk as [-> | Hk]); [.. | by apply elem_of_nil in Hk].
  - left. in_list.
  - left. in_list.
  - left. in_list.
  - right. by left.
  - right. right. by eexists.
  - right. by left.
Qed.

Lemma default_record_id_missing el m d test_stage :
  el !! "num_training_iters" = None →
  test_id DEFAULT_SHORT_TEST_PARAMETERS_NAMES_FOR_GENERATING_ID
    (make_record DEFAULT_TEST_PARAMETERS el m d test_stage)
  = Raise (KeyError "num_training_iters").
Proof.
  intros Hn. unfold test_id.
  rewrite (id_parts_first_missing _
             [("test_stage", "ACTION"); ("model_name", "model"); ("dataset_name", "dataset")]
             "num_training_iters" "num_iters"
             [("batch_size", "batch"); ("usecase", "usecase")]); [done | |].
  - intros k Hk. apply make_record_is_Some. left. exact Hk.
  - rewrite make_record_pass_through; [done | | done].
    unfold expansion_keys. rewrite !not_elem_of_union, !not_elem_of_singleton. done.
Qed.

(** X2: the constructor accepts the outputs of the default interface,
    whatever the test case class and the bunches.  With this helper every
    bunch has to give [num_training_iters] and [usecase] itself, since the
    default values name [num_iters] and [batch_size] only: when every bunch
    has both keys the call returns; when no bunch has [num_training_iters]
    the call either has no record to build, and returns empty lists, or
    raises [KeyError] for [num_training_iters]. *)
Theorem default_helper_needs_num_training_iters cls bunches :
  ∃ h,
    OTETestHelper_init (DefaultOTETestCreationParameters cls bunches) = Ok h ∧
    ∀ ds os usecase,
      let σ := {| self := h; dicts := ds; objects := os |} in
      bunches_on_heap σ →
      ((∀ a el, EDict a ∈ bunches → ds !! a = Some el →
                is_Some (el !! "num_training_iters") ∧ is_Some (el !! "usecase")) →
       ∃ out, (get_list_of_tests usecase σ).1 = Ok out) ∧
      ((∀ a el, EDict a ∈ bunches → ds !! a = Some el →
                el !! "num_training_iters" = None) →
       get_list_of_tests usecase σ = (Ok (argnames, [], []), σ)
       ∨ (get_list_of_tests usecase σ).1 = Raise (KeyError "num_training_iters")).
Proof.
  eexists. split; [reflexivity |]. intros ds os usecase σ Hwf.
  pose proof (get_list_of_tests_spec usecase σ Hwf) as Hspec.
  change (short_test_parameters_names_for_generating_id (self σ))
    with DEFAULT_SHORT_TEST_PARAMETERS_NAMES_FOR_GENERATING_ID in Hspec.
  split.
  - intros Hkeys.
    destruct (result_map_is_Ok
                (test_id DEFAULT_SHORT_TEST_PARAMETERS_NAMES_FOR_GENERATING_ID)
                (expansion usecase σ)) as [ids Hids].
    { apply Forall_forall. intros r Hr.
      destruct (elem_of_expansion_inv _ _ _ Hr)
        as (a & el & m & d & s & Ha & Hel & _ & _ & _ & _ & ->).
      destruct (Hkeys a el Ha Hel). by apply default_record_id_Ok. }
    rewrite Hids in Hspec. rewrite Hspec. by eauto.
  - intros Hkeys. destruct (expansion usecase σ) as [| r rest] eqn:Hexp.
    + left. cbn [result_map] in Hspec. rewrite Hspec. unfold set_dicts. simpl.
      by rewrite app_nil_r.
    + right.
      assert (r ∈ expansion usecase σ) as Hr by (rewrite Hexp; apply list_elem_of_here).
      destruct (elem_of_expansion_inv _ _ _ Hr)
        as (a & el & m & d & s & Ha & Hel & _ & _ & _ & _ & Heq).
      simpl in Heq, Hspec. rewrite Heq in Hspec.
      rewrite (default_record_id_missing _ _ _ _ (Hkeys a el Ha Hel)) in Hspec.
      simpl in Hspec. by destruct Hspec as (σ' & -> & _).
Qed.

(** ** Further properties of [get_test_case] *)

(** What a call may change. *)
Lemma get_test_case_effect σ tp f :
  let run := get_test_case tp f σ in
  dicts run.2 = dicts σ ∧
  test_case_class (self run.2) = test_case_class (self σ) ∧
  test_bunches (self run.2) = test_bunches (self σ) ∧
  short_test_parameters_names_for_generating_id (self run.2)
  = short_test_parameters_names_for_generating_id (self σ) ∧
  test_parameters_defining_test_case_behavior (self run.2)
  = test_parameters_defining_test_case_behavior (self σ) ∧
  default_test_parameters (self run.2) = default_test_parameters (self σ) ∧
  (run.2 = σ
   ∨ (run.1 = Ok (Some (length (objects σ))) ∧
      objects run.2 = objects σ ++ [f] ∧
      _cached_value (_cache (self run.2)) = Some (length (objects σ)))).
Proof.
  intros run. unfold run. rewrite get_test_case_unfold. unfold get_test_case_outcome.
  destruct (dict_comprehension tp _ σ).1 as [k | e]; [| by split_and!; try left].
  destruct (bool_decide _); [by split_and!; try left |].
  destruct (tc_init _ f); [by split_and!; try left |].
  split_and!; try done. by right.
Qed.

(** X8: a call never writes a dict and never changes the test case class,
    the bunches, the naming map, the identity keys or the default values of
    the helper; it either leaves the whole state as it was, or constructs
    exactly one instance, which it returns and caches. *)
Theorem get_test_case_frame σ tp f :
  let run := get_test_case tp f σ in
  dicts run.2 = dicts σ ∧
  test_case_class (self run.2) = test_case_class (self σ) ∧
  test_bunches (self run.2) = test_bunches (self σ) ∧
  short_test_parameters_names_for_generating_id (self run.2)
  = short_test_parameters_names_for_generating_id (self σ) ∧
  test_parameters_defining_test_case_behavior (self run.2)
  = test_parameters_defining_test_case_behavior (self σ) ∧
  default_test_parameters (self run.2) = default_test_parameters (self σ) ∧
  (run.2 = σ
   ∨ (run.1 = Ok (Some (length (objects σ))) ∧
      objects run.2 = objects σ ++ [f] ∧
      _cached_value (_cache (self run.2)) = Some (length (objects σ)))).
Proof. exact (get_test_case_effect σ tp f). Qed.

Lemma project_from_ext acc d1 d2 keys :
  (∀ k, k ∈ keys → d1 !! k = d2 !! k) →
  project_from acc d1 keys = project_from acc d2 keys.
Proof.
  revert acc. induction keys as [| k r IH]; intros acc Hk; simpl; [done |].
  rewrite (Hk k) by apply list_elem_of_here.
  destruct (d2 !! k); [| done]. apply IH. intros k' ?. apply Hk.
  by apply list_elem_of_further.
Qed.

(** X9: after a call that returns, the cache holds the identity key of the
    record it was called with and the returned value; a further call with
    any record that has the same values for the identity keys, whatever its
    other keys and whatever the factories, returns the same value and leaves
    the state as it is. *)
Theorem get_test_case_repeat σ tp f d v σ' :
  dicts σ !! tp = Some d →
  get_test_case tp f σ = (Ok v, σ') →
  let keys := test_parameters_defining_test_case_behavior (self σ) in
  case_identity_key keys d = Ok (_cache_parameters (_cache (self σ'))) ∧
  _cached_value (_cache (self σ')) = v ∧
  ∀ tp2 d2 f2,
    dicts σ !! tp2 = Some d2 →
    (∀ k, k ∈ keys → d2 !! k = d !! k) →
    get_test_case tp2 f2 σ' = (Ok v, σ').
Proof.
  intros Hd Hrun keys.
  pose proof (get_test_case_effect σ tp f) as (Hds & _ & _ & _ & Hkeys & _ & _).
  rewrite Hrun in Hds, Hkeys. simpl in Hds, Hkeys.
  rewrite (get_test_case_spec _ _ _ _ Hd) in Hrun. fold keys in Hrun.
  unfold get_test_case_outcome in Hrun.
  destruct (case_identity_key keys d) as [k |] eqn:Hk; [| done].
  assert (_cache_parameters (_cache (self σ')) = k ∧ _cached_value (_cache (self σ')) = v)
    as [Hck Hcv].
  { destruct (bool_decide _) eqn:Hb.
    - injection Hrun as <- <-. by apply bool_decide_eq_true in Hb.
    - destruct (tc_init _ f); [done |]. by injection Hrun as <- <-. }
  split_and!; [by rewrite Hck | done |].
  intros tp2 d2 f2 Hd2 Hsame.
  rewrite (get_test_case_spec tp2 f2 d2 σ') by by rewrite Hds.
  rewrite Hkeys. fold keys. unfold case_identity_key in *.
  rewrite (project_from_ext _ d2 d _ Hsame), Hk. simpl.
  by rewrite bool_decide_true, Hcv.
Qed.

Lemma project_from_keeps acc d keys res k :
  project_from acc d keys = Ok res → is_Some (acc !! k) → is_Some (res !! k).
Proof.
  revert acc. induction keys as [| k0 r IH]; intros acc; simpl.
  - by intros [= <-].
  - destruct (d !! k0) as [v |]; [| done]. intros Hr Hk. apply (IH _ Hr).
    rewrite lookup_insert. case_decide; by eauto.
Qed.

Lemma dict_getitem_dangling a k σ :
  dicts σ !! a = None → dict_getitem a k σ = (Raise DanglingReference, σ).
Proof. intros Ha. unfold dict_getitem, dict_read. by rewrite bind_unfold, Ha. Qed.

Lemma dict_comprehension_empty_result tp keys σ :
  (dict_comprehension tp keys σ).1 = Ok ∅ → keys = [].
Proof.
  destruct keys as [| k0 r]; [done |]. intros Hres. exfalso.
  destruct (dicts σ !! tp) as [d |] eqn:Hd.
  - rewrite (dict_comprehension_ok _ _ _ _ Hd) in Hres. simpl in Hres.
    unfold case_identity_key in Hres. simpl in Hres.
    destruct (d !! k0) as [v |]; [| done].
    destruct (project_from_keeps _ _ _ _ k0 Hres) as [w Hw].
    + rewrite lookup_insert_eq. by eauto.
    + by rewrite lookup_empty in Hw.
  - unfold dict_comprehension in Hres. cbn [foldM] in Hres.
    by rewrite !bind_unfold, (dict_getitem_dangling _ _ _ Hd) in Hres.
Qed.

(** X10: the helper built by the constructor has a well-formed cache, and
    every call keeps the cache well formed.  On such a state a returned
    reference always points to an instance, and [None] is returned only when
    the list of parameters defining the test case behaviour is empty. *)
Theorem get_test_case_cache_ok :
  (∀ p h ds os,
     OTETestHelper_init p = Ok h → cache_ok {| self := h; dicts := ds; objects := os |}) ∧
  (∀ σ tp f,
     cache_ok σ →
     let run := get_test_case tp f σ in
     cache_ok run.2 ∧
     (∀ n, run.1 = Ok (Some n) → n < length (objects run.2)) ∧
     (run.1 = Ok None → test_parameters_defining_test_case_behavior (self σ) = [])).
Proof.
  split.
  - intros p h ds os. unfold OTETestHelper_init.
    destruct (_ && _); [| done]. by intros [= <-].
  - intros σ tp f Hok run. unfold run. rewrite get_test_case_unfold.
    unfold get_test_case_outcome.
    destruct (dict_comprehension tp _ σ).1 as [k | e] eqn:Hk; [| done].
    destruct (bool_decide _) eqn:Hb.
    + apply bool_decide_eq_true in Hb. simpl. unfold cache_ok in Hok.
      split_and!; [done | |].
      * intros n [= Hn]. by rewrite Hn in Hok.
      * intros [= Hn]. rewrite Hn in Hok. rewrite Hok in Hb. subst k.
        by eapply dict_comprehension_empty_result.
    + destruct (tc_init _ f); [done |]. simpl. unfold cache_ok. simpl.
      rewrite length_app. simpl. split_and!; [lia | | done].
      intros n [= <-]. lia.
Qed.

Lemma get_test_case_calls_cons tp f calls σ :
  get_test_case_calls ((tp, f) :: calls) σ
  = ((get_test_case tp f σ).1 :: (get_test_case_calls calls (get_test_case tp f σ).2).1,
     (get_test_case_calls calls (get_test_case tp f σ).2).2).
Proof.
  simpl. destruct (get_test_case tp f σ) as [res σ1]. simpl.
  by destruct (get_test_case_calls calls σ1).
Qed.

Lemma get_test_case_calls_app calls1 calls2 σ :
  (get_test_case_calls (calls1 ++ calls2) σ).2
  = (get_test_case_calls calls2 (get_test_case_calls calls1 σ).2).2.
Proof.
  revert σ. induction calls1 as [| [tp f] r IH]; intros σ; [done |].
  rewrite <- app_comm_cons, !get_test_case_calls_cons. simpl. apply IH.
Qed.

Lemma get_test_case_calls_frame calls σ :
  dicts (get_test_case_calls calls σ).2 = dicts σ ∧
  test_case_class (self (get_test_case_calls calls σ).2) = test_case_class (self σ) ∧
  test_parameters_defining_test_case_behavior (self (get_test_case_calls calls σ).2)
  = test_parameters_defining_test_case_behavior (self σ).
Proof.
  revert σ. induction calls as [| [tp f] r IH]; intros σ; [done |].
  rewrite get_test_case_calls_cons. simpl.
  destruct (IH (get_test_case tp f σ).2) as (-> & -> & ->).
  by destruct (get_test_case_effect σ tp f) as (-> & -> & _ & _ & -> & _).
Qed.

(** X11: when every call finds its identity key and the constructor does
    not raise, a run of calls returns a value at every call and constructs
    exactly as many instances as there are calls whose key differs from the
    key of the call before (for the first call: from the key in the cache). *)
Theorem get_test_case_calls_constructions calls ks σ :
  Forall2 (λ c k, ∃ d, dicts σ !! c.1 = Some d ∧
                       case_identity_key
                         (test_parameters_defining_test_case_behavior (self σ)) d = Ok k)
          calls ks →
  (∀ c, c ∈ calls → tc_init (test_case_class (self σ)) c.2 = None) →
  let run := get_test_case_calls calls σ in
  length (objects run.2)
  = length (objects σ) + key_changes (_cache_parameters (_cache (self σ))) ks ∧
  Forall (λ res, ∃ v, res = Ok v) run.1.
Proof.
  revert ks σ.
  induction calls as [| [tp f] r IH]; intros ks σ Hks Hinit run; unfold run.
  - apply Forall2_nil_inv_l in Hks as ->. simpl. split; [lia | constructor].
  - apply Forall2_cons_inv_l in Hks as (k & ks' & (d & Hd & Hk) & Hks & ->).
    rewrite get_test_case_calls_cons. simpl in Hd |- *.
    pose proof (get_test_case_effect σ tp f) as (Hds & Hcls & _ & _ & Hkeys & _ & _).
    specialize (IH ks' (get_test_case tp f σ).2).
    rewrite Hds, Hkeys, Hcls in IH.
    destruct IH as [IHn IHr]; [done | |].
    { intros c Hc. apply Hinit. by apply list_elem_of_further. }
    rewrite IHn. clear IHn.
    assert (tc_init (test_case_class (self σ)) f = None) as Hf
      by (apply (Hinit (tp, f)); apply list_elem_of_here).
    rewrite (get_test_case_spec _ _ _ _ Hd), Hk in IHr |- *.
    unfold get_test_case_outcome in *. rewrite Hf in IHr |- *.
    case_bool_decide as Hb; simpl in *.
    + rewrite decide_True by done. rewrite Hb. split; [lia |].
      constructor; [by eauto | done].
    + rewrite decide_False by done. rewrite length_app. simpl. split; [lia |].
      constructor; [by eauto | done].
Qed.

Lemma serves_nil keys : serves keys [] 0.
Proof. intros calls σ _ Hc. apply Forall2_nil_inv_r in Hc as ->. simpl. lia. Qed.

Lemma serves_app keys recs1 recs2 n1 n2 :
  serves keys recs1 n1 → serves keys recs2 n2 → serves keys (recs1 ++ recs2) (n1 + n2).
Proof.
  intros H1 H2 calls σ Hkeys Hc.
  apply Forall2_app_inv_r in Hc as (c1 & c2 & Hc1 & Hc2 & ->).
  rewrite get_test_case_calls_app.
  destruct (get_test_case_calls_frame c1 σ) as (Hds & _ & Hk).
  specialize (H1 c1 σ Hkeys Hc1).
  specialize (H2 c2 (get_test_case_calls c1 σ).2).
  rewrite Hds, Hk in H2. specialize (H2 Hkeys Hc2). lia.
Qed.

Lemma serves_bind {X} keys (f : X → list dict) (g : X → nat) (l : list X) :
  (∀ x, x ∈ l → serves keys (f x) (g x)) →
  serves keys (l ≫= f) (sum_list (g <$> l)).
Proof.
  induction l as [| x r IH]; intros Hx; [apply serves_nil |].
  rewrite bind_cons. cbn [fmap list_fmap sum_list_with]. unfold id at 1.
  apply serves_app.
  - apply Hx, list_elem_of_here.
  - apply IH. intros y ?. apply Hx. by apply list_elem_of_further.
Qed.

(** Calls whose key is the cached one change nothing. *)
Lemma reuse_block σ calls recs k :
  _cache_parameters (_cache (self σ)) = k →
  Forall2 (λ c r, dicts σ !! c.1 = Some r ∧
                  case_identity_key
                    (test_parameters_defining_test_case_behavior (self σ)) r = Ok k)
          calls recs →
  (get_test_case_calls calls σ).2 = σ.
Proof.
  intros Hc Hcalls. induction Hcalls as [| [tp f] r cs rs [Hd Hk] _ IH]; [done |].
  rewrite get_test_case_calls_cons. simpl in *.
  rewrite (get_test_case_spec _ _ _ _ Hd), Hk. unfold get_test_case_outcome.
  rewrite bool_decide_true by done. simpl. exact IH.
Qed.

Lemma serves_block keys recs :
  (∀ r1 r2 k, r1 ∈ recs → r2 ∈ recs → k ∈ keys → r1 !! k = r2 !! k) →
  serves keys recs 1.
Proof.
  intros Hsame calls. revert recs Hsame.
  induction calls as [| [tp f] cs IH]; intros recs Hsame σ Hkeys Hcalls.
  - simpl. lia.
  - apply Forall2_cons_inv_l in Hcalls as (r & rs & Hd & Hcalls & ->). simpl in Hd.
    rewrite get_test_case_calls_cons. simpl.
    pose proof (get_test_case_effect σ tp f) as (Hds & _ & _ & _ & Hk' & _ & Hcase).
    destruct Hcase as [Hsame_state | (Hres & Hobj & _)].
    + rewrite Hsame_state. apply (IH rs); [| done | done].
      intros r1 r2 k ???. apply Hsame; [by apply list_elem_of_further .. | done].
    + (* an instance was constructed: the rest of the block reuses it *)
      rewrite (get_test_case_spec _ _ _ _ Hd), Hkeys in Hres, Hobj |- *.
      unfold get_test_case_outcome in *.
      destruct (case_identity_key keys r) as [k |] eqn:Hkr; [| done].
      destruct (bool_decide _); simpl in *.
      { exfalso. apply (f_equal length) in Hobj. rewrite length_app in Hobj.
        simpl in Hobj. lia. }
      destruct (tc_init _ f); simpl in *.
      { exfalso. apply (f_equal length) in Hobj. rewrite length_app in Hobj.
        simpl in Hobj. lia. }
      rewrite (reuse_block _ cs rs k); simpl; [rewrite length_app; simpl; lia | done |].
      apply Forall2_same_length_lookup_2; [by eapply Forall2_length |].
      intros i c r' Hc Hr'. pose proof (Forall2_lookup_lr _ _ _ _ _ _ Hcalls Hc Hr') as Hcr.
      split; [done |]. rewrite Hkeys, <- Hkr. unfold case_identity_key.
      apply project_from_ext. intros k' Hk'in. apply Hsame; [| | done].
      * apply list_elem_of_further. by eapply list_elem_of_lookup_2.
      * apply list_elem_of_here.
Qed.

Lemma make_record_same_keys defaults el m d s1 s2 k :
  k ≠ "test_stage" →
  make_record defaults el m d s1 !! k = make_record defaults el m d s2 !! k.
Proof.
  intros Hk. unfold make_record. rewrite !fill_defaults_lookup.
  assert (∀ s, (<["dataset_name" := d]> (<["model_name" := m]> (<["test_stage" := s]> el)))
                 !! k
               = (<["dataset_name" := d]> (<["model_name" := m]> el)) !! k) as Hs.
  { intros s. rewrite !lookup_insert. repeat case_decide; congruence. }
  by rewrite !Hs.
Qed.

Lemma serves_expansion usecase σ :
  "test_stage" ∉ test_parameters_defining_test_case_behavior (self σ) →
  serves (test_parameters_defining_test_case_behavior (self σ))
    (expansion usecase σ)
    (sum_list (bunch_pairs usecase σ <$> test_bunches (self σ))).
Proof.
  intros Hstage. unfold expansion. apply serves_bind. intros e _.
  unfold entry_records, bunch_pairs. destruct e as [a | v]; [| apply serves_nil].
  destruct (dicts σ !! a) as [el |]; [| apply serves_nil].
  destruct (selected usecase el); [| apply serves_nil].
  unfold bunch_records. rewrite <- length_prod.
  replace (length (list_prod (as_sequence (default VNone (el !! "model_name")))
                     (as_sequence (default VNone (el !! "dataset_name")))))
    with (sum_list ((λ _, 1) <$> list_prod (as_sequence (default VNone (el !! "model_name")))
                     (as_sequence (default VNone (el !! "dataset_name"))))).
  2: { induction (list_prod _ _) as [| x r IH]; [done |].
       cbn [fmap list_fmap sum_list_with length]. by rewrite IH. }
  apply serves_bind. intros [m d] _. simpl. apply serves_block.
  intros r1 r2 k Hr1 Hr2 Hk.
  apply list_elem_of_bind in Hr1 as (s1 & ->%list_elem_of_singleton & _).
  apply list_elem_of_bind in Hr2 as (s2 & ->%list_elem_of_singleton & _).
  apply make_record_same_keys. intros ->. done.
Qed.

Lemma fmap_lookup_Forall2 {A} (l : list A) (avs : list nat) (recs : list A) :
  (λ a, l !! a) <$> avs = Some <$> recs →
  Forall2 (λ a r, l !! a = Some r) avs recs.
Proof.
  revert recs. induction avs as [| a r IH]; intros [| x recs] Heq; try discriminate.
  - constructor.
  - injection Heq as Ha Heq. constructor; [done | by apply IH].
Qed.

(** X12: when [test_stage] is not among the parameters defining the test
    case behaviour, running the tests of the matrix in the order of
    [argvalues], with any factories and whatever the constructor does,
    constructs at most one test case instance per (model, dataset) pair of
    the bunches that pass the filter: the stages of a pair share their
    instance. *)
Theorem get_test_case_serves_matrix usecase σ names argvalues ids calls :
  bunches_on_heap σ →
  "test_stage" ∉ test_parameters_defining_test_case_behavior (self σ) →
  (get_list_of_tests usecase σ).1 = Ok (names, argvalues, ids) →
  calls.*1 = argvalues →
  (length (objects (get_test_case_calls calls (get_list_of_tests usecase σ).2).2)
   ≤ length (objects σ) + sum_list (bunch_pairs usecase σ <$> test_bunches (self σ)))%nat.
Proof.
  intros Hwf Hstage Hrun Hcalls.
  destruct (run_Ok_contents _ _ _ _ _ Hwf Hrun) as (_ & _ & Hrecs).
  destruct (run_extends usecase σ Hwf) as (Hself & Hobj & _).
  rewrite <- Hobj.
  apply (serves_expansion usecase σ Hstage).
  - by rewrite Hself.
  - apply fmap_lookup_Forall2 in Hrecs. subst argvalues.
    by apply Forall2_fmap_l in Hrecs.
Qed.

End Helper.

(** * [BranchImage] of [otx/mpa/modules/datasets/pipelines/torchvision2mmdet.py] *)

Section BranchImage.

(** What an object that is none of the containers below holds (an image,
    an array): opaque here. *)
Variable Opaque : Type.

(** [PException] is any other exception, by the name of its class;
    [PDanglingReference] has no Python counterpart: it is the answer of the
    model for a reference that is not on the heap. *)
Inductive pipeline_exn : Type :=
  | PKeyError (k : string)
  | PTypeError
  | PAttributeError
  | PException (name : string)
  | PDanglingReference.

(** What [k in obj] answers or raises on an opaque object: [TypeError] on
    an object that is not a container (a PIL image, a number, [None]), and
    what its [__contains__] says on an array or a tensor.  The test is
    taken not to change any object, and an opaque object to have no
    attribute [append]. *)
Variable opaque_contains : Opaque → string → pipeline_exn + bool.

(** The objects the values of [results] point to: the built-in containers
    with [str] items ([list], [tuple], [set] or [frozenset], [dict] with its
    values as references, [str], [collections.deque] with its [maxlen]), or
    an opaque object. *)
Inductive pyobj : Type :=
  | OList (l : list string)
  | OTuple (l : list string)
  | OSet (s : gset string)
  | ODict (d : gmap string nat)
  | OStr (s : string)
  | ODeque (maxlen : option nat) (l : list string)
  | OOther (x : Opaque).

(** The dict [results], whose values are references, and the objects they
    point to.  [results[k2] = results[k1]] copies a reference, and
    [results["img_fields"].append(k2)] changes the object in place. *)
Record pipeline_state : Type := {
  results : gmap string nat;
  heap : list pyobj
}.

(** [k in s] for two strings: [k] occurs in [s]. *)
Fixpoint str_contains (k s : string) : bool :=
  String.prefix k s ||
  match s with
  | EmptyString => false
  | String _ r => str_contains k r
  end.

(** [k in obj] *)
Definition py_in (k : string) (obj : pyobj) : pipeline_exn + bool :=
  match obj with
  | OList l => inr (bool_decide (k ∈ l))
  | OTuple l => inr (bool_decide (k ∈ l))
  | OSet s => inr (bool_decide (k ∈ s))
  | ODict d => inr (bool_decide (is_Some (d !! k)))
  | OStr s => inr (str_contains k s)
  | ODeque _ l => inr (bool_decide (k ∈ l))
  | OOther x => opaque_contains x k
  end.

(** [deque.append]: the item goes to the right end, and a deque that is
    then longer than its [maxlen] loses its leftmost item. *)
Definition deque_append (maxlen : option nat) (l : list string) (k : string) : list string :=
  match maxlen with
  | Some m => if (m <? length (l ++ [k]))%nat then drop 1 (l ++ [k]) else l ++ [k]
  | None => l ++ [k]
  end.

(** [obj.append(k)]: the object after the call, or [None] when [obj] has no
    attribute [append]. *)
Definition py_append (obj : pyobj) (k : string) : option pyobj :=
  match obj with
  | OList l => Some (OList (l ++ [k]))
  | ODeque maxlen l => Some (ODeque maxlen (deque_append maxlen l k))
  | OTuple _ | OSet _ | ODict _ | OStr _ | OOther _ => None
  end.

(** One round of the loop of [BranchImage.__call__], for the item
    [(k1, k2)] of [key_map]; the exception, if one is raised, comes with the
    state at the raise. *)
Definition branch_item (k1 k2 : string) (st : pipeline_state)
  : option pipeline_exn * pipeline_state :=
  let st1 :=
    match results st !! k1 with
    | Some r => {| results := <[k2 := r]> (results st); heap := heap st |}
    | None => st
    end in
  match results st1 !! "img_fields" with
  | None => (Some (PKeyError "img_fields"), st1)
  | Some fr =>
      match heap st1 !! fr with
      | None => (Some PDanglingReference, st1)
      | Some img_fields =>
          match py_in k1 img_fields with
          | inl e => (Some e, st1)
          | inr false => (None, st1)
          | inr true =>
              match py_append img_fields k2 with
              | None => (Some PAttributeError, st1)
              | Some img_fields' =>
                  (None, {| results := results st1;
                            heap := <[fr := img_fields']> (heap st1) |})
              end
          end
      end
  end.

(** [BranchImage.__call__]; [key_map], a dict other than [results], is
    given by its items, in the order of the dict.  The returned dict is
    [results] itself. *)
Fixpoint BranchImage_call (key_map : list (string * string)) (st : pipeline_state)
  : option pipeline_exn * pipeline_state :=
  match key_map with
  | [] => (None, st)
  | (k1, k2) :: rest =>
      match branch_item k1 k2 st with
      | (None, st') => BranchImage_call rest st'
      | (Some e, st') => (Some e, st')
      end
  end.

(** [obj'] is [obj] after some calls of [append]: a list with items added at
    its end, a deque after the appends of [added] one by one, and the very
    same value for any other object. *)
Definition appended (obj obj' : pyobj) : Prop :=
  match obj with
  | OList l => ∃ l', obj' = OList (l ++ l')
  | ODeque maxlen l => ∃ added, obj' = ODeque maxlen (foldl (deque_append maxlen) l added)
  | OTuple _ | OSet _ | ODict _ | OStr _ | OOther _ => obj' = obj
  end.

(** [st'] has every key of [st] and the same objects, except that lists and
    deques may have been appended to. *)
Definition grows (st st' : pipeline_state) : Prop :=
  dom (results st) ⊆ dom (results st') ∧
  length (heap st') = length (heap st) ∧
  ∀ r obj, heap st !! r = Some obj →
           ∃ obj', heap st' !! r = Some obj' ∧ appended obj obj'.

(** The keys appended to [img_fields]: the targets of the items whose
    source is an image field. *)
Definition branched_fields (img_fields : list string) (key_map : list (string * string))
  : list string :=
  (filter (λ kk, kk.1 ∈ img_fields) key_map).*2.

Lemma appended_refl obj : appended obj obj.
Proof.
  destruct obj; simpl; try done.
  - exists []. by rewrite app_nil_r.
  - by exists [].
Qed.

Lemma appended_trans o1 o2 o3 : appended o1 o2 → appended o2 o3 → appended o1 o3.
Proof.
  destruct o1; simpl; try (by intros -> ?).
  - intros [l1 ->] [l2 ->]. exists (l1 ++ l2). by rewrite app_assoc.
  - intros [a1 ->] [a2 ->]. exists (a1 ++ a2). by rewrite foldl_app.
Qed.

Lemma py_append_appended obj k obj' : py_append obj k = Some obj' → appended obj obj'.
Proof.
  destruct obj; simpl; try done.
  - intros [= <-]. by exists [k].
  - intros [= <-]. by exists [k].
Qed.

Lemma grows_refl st : grows st st.
Proof.
  split_and!; [done | done |]. intros r obj Hr. exists obj. split; [done | apply appended_refl].
Qed.

Lemma grows_trans st1 st2 st3 : grows st1 st2 → grows st2 st3 → grows st1 st3.
Proof.
  intros (Hd1 & Hl1 & Hh1) (Hd2 & Hl2 & Hh2). split_and!; [by etrans | congruence |].
  intros r o1 Hr. destruct (Hh1 r o1 Hr) as (o2 & Hr2 & Ha2).
  destruct (Hh2 r o2 Hr2) as (o3 & Hr3 & Ha3).
  exists o3. split; [done | by eapply appended_trans].
Qed.

Lemma branch_item_grows k1 k2 st :
  grows st (branch_item k1 k2 st).2 ∧
  ∀ k r, results (branch_item k1 k2 st).2 !! k = Some r → ∃ k0, results st !! k0 = Some r.
Proof.
  unfold branch_item.
  set (st1 := match results st !! k1 with
              | Some r => {| results := <[k2 := r]> (results st); heap := heap st |}
              | None => st
              end).
  assert (grows st st1 ∧ ∀ k r, results st1 !! k = Some r → ∃ k0, results st !! k0 = Some r)
    as [Hg1 Hr1].
  { unfold st1. destruct (results st !! k1) as [r1 |] eqn:Hk1.
    - split.
      + split_and!; simpl; [| done |].
        * rewrite dom_insert_L. apply union_subseteq_r.
        * intros r obj Hr. exists obj. split; [done | apply appended_refl].
      + simpl. intros k r. rewrite lookup_insert. case_decide; [| by eauto].
        intros [= <-]. by eauto.
    - split; [apply grows_refl | by eauto]. }
  destruct (results st1 !! "img_fields") as [fr |]; [| done].
  destruct (heap st1 !! fr) as [img_fields |] eqn:Hfr; [| done].
  destruct (py_in k1 img_fields) as [e | [|]]; [done | | done].
  destruct (py_append img_fields k2) as [img_fields' |] eqn:Happ; [| done].
  simpl. split; [| done].
  eapply grows_trans; [exact Hg1 |].
  split_and!; simpl; [done | by rewrite length_insert |].
  intros r obj Hr. destruct (decide (r = fr)) as [-> | Hne].
  - exists img_fields'. split.
    + apply list_lookup_insert_eq. by eapply lookup_lt_Some.
    + rewrite Hfr in Hr. injection Hr as <-. by eapply py_append_appended.
  - exists obj. rewrite list_lookup_insert_ne by done. split; [done | apply appended_refl].
Qed.

(** X13: whatever the key map and whether an exception is raised or not,
    [BranchImage] never removes a key of [results], never creates or copies
    an object (every value of the result is a value of the input), never
    changes an object that is neither a list nor a deque, and changes a list
    or a deque only by appending to it. *)
Theorem BranchImage_only_adds key_map st :
  grows st (BranchImage_call key_map st).2 ∧
  ∀ k r, results (BranchImage_call key_map st).2 !! k = Some r →
         ∃ k0, results st !! k0 = Some r.
Proof.
  revert st. induction key_map as [| [k1 k2] rest IH]; intros st.
  - simpl. split; [apply grows_refl | by eauto].
  - simpl. destruct (branch_item_grows k1 k2 st) as [Hg Hr].
    destruct (branch_item k1 k2 st) as [[e |] st'] eqn:Hitem; simpl in *; [done |].
    destruct (IH st') as [Hg' Hr']. split; [by eapply grows_trans |].
    intros k r Hk. destruct (Hr' k r Hk) as [k0 Hk0]. by eapply Hr.
Qed.

Lemma branch_item_ok k1 k2 st fr img_fields :
  results st !! "img_fields" = Some fr →
  heap st !! fr = Some (OList img_fields) →
  k2 ≠ "img_fields" →
  branch_item k1 k2 st
  = (None,
     {| results := match results st !! k1 with
                   | Some r => <[k2 := r]> (results st)
                   | None => results st
                   end;
        heap := <[fr := OList (if bool_decide (k1 ∈ img_fields)
                               then img_fields ++ [k2] else img_fields)]> (heap st) |}).
Proof.
  intros Hf Hh Hk2. unfold branch_item.
  destruct (results st !! k1) as [r |] eqn:Hk1; simpl.
  - rewrite lookup_insert_ne, Hf, Hh by done. simpl.
    case_bool_decide; [done |]. by rewrite (list_insert_id _ _ _ Hh).
  - rewrite Hf, Hh. simpl. case_bool_decide; [done |].
    rewrite (list_insert_id _ _ _ Hh). by destruct st.
Qed.

Lemma branched_fields_cons img_fields k1 k2 rest :
  branched_fields img_fields ((k1, k2) :: rest)
  = (if bool_decide (k1 ∈ img_fields) then [k2] else []) ++ branched_fields img_fields rest.
Proof.
  unfold branched_fields. rewrite filter_cons. simpl.
  case_bool_decide; [by rewrite decide_True | by rewrite decide_False].
Qed.

Lemma branched_fields_ext l1 l2 key_map :
  (∀ kk, kk ∈ key_map → kk.1 ∈ l1 ↔ kk.1 ∈ l2) →
  branched_fields l1 key_map = branched_fields l2 key_map.
Proof.
  intros Hext. unfold branched_fields. f_equal.
  induction key_map as [| kk rest IH]; [done |].
  rewrite !filter_cons. rewrite IH.
  - destruct (decide (kk.1 ∈ l1)) as [H1 | H1].
    + rewrite decide_True; [done |]. by apply (Hext kk (list_elem_of_here _ _)).
    + rewrite decide_False; [done |]. intros H2. apply H1.
      by apply (Hext kk (list_elem_of_here _ _)).
  - intros kk' ?. apply Hext. by apply list_elem_of_further.
Qed.

(** X14: on a [results] whose [img_fields] is a list, and with a key map
    whose targets are pairwise distinct, are not sources and are not
    [img_fields], the call returns; every target of a source that is in
    [results] then points to the very object of the source (no copy is
    made), a target whose source is absent and every other key keep their
    value, and the targets of the sources that are image fields have been
    appended to [img_fields], in the order of the key map; no other object
    has changed. *)
Theorem BranchImage_branches key_map st fr img_fields :
  results st !! "img_fields" = Some fr →
  heap st !! fr = Some (OList img_fields) →
  NoDup (key_map.*2) →
  (∀ k2, k2 ∈ key_map.*2 → (k2 ∉ key_map.*1) ∧ k2 ≠ "img_fields") →
  ∃ res,
    BranchImage_call key_map st
    = (None,
       {| results := res;
          heap := <[fr := OList (img_fields ++ branched_fields img_fields key_map)]>
                    (heap st) |}) ∧
    (∀ k, k ∉ key_map.*2 → res !! k = results st !! k) ∧
    (∀ k1 k2, (k1, k2) ∈ key_map →
              res !! k2 = match results st !! k1 with
                          | Some r => Some r
                          | None => results st !! k2
                          end).
Proof.
  revert st img_fields.
  induction key_map as [| [k1 k2] rest IH]; intros st img_fields Hf Hh Hnd Hfresh.
  - exists (results st). split_and!.
    + simpl. unfold branched_fields. simpl.
      rewrite app_nil_r, (list_insert_id _ _ _ Hh). by destruct st.
    + done.
    + intros k1 k2 Hin. by apply elem_of_nil in Hin.
  - cbn [fmap list_fmap] in Hnd, Hfresh. simpl in Hnd, Hfresh.
    apply NoDup_cons in Hnd as [Hk2 Hnd].
    destruct (Hfresh k2 (list_elem_of_here _ _)) as [Hk2src Hk2f].
    apply not_elem_of_cons in Hk2src as [Hk21 Hk2src].
    cbn [BranchImage_call]. rewrite (branch_item_ok k1 k2 st fr img_fields Hf Hh Hk2f).
    set (res1 := match results st !! k1 with
                 | Some r => <[k2 := r]> (results st)
                 | None => results st
                 end).
    set (fields1 := if bool_decide (k1 ∈ img_fields) then img_fields ++ [k2] else img_fields).
    assert (∀ k, k ≠ k2 → res1 !! k = results st !! k) as Hres1.
    { intros k Hk. unfold res1. destruct (results st !! k1); [| done].
      by rewrite lookup_insert_ne. }
    destruct (IH {| results := res1; heap := <[fr := OList fields1]> (heap st) |} fields1)
      as (res & Hcall & Hother & Htarget).
    + simpl. by rewrite Hres1.
    + simpl. apply list_lookup_insert_eq. by eapply lookup_lt_Some.
    + done.
    + intros k Hk. destruct (Hfresh k (list_elem_of_further _ _ _ Hk)) as [Hsrc ?].
      split; [| done]. by apply not_elem_of_cons in Hsrc as [_ ?].
    + exists res. split_and!.
      * rewrite Hcall. simpl. rewrite list_insert_insert_eq. do 3 f_equal.
        rewrite branched_fields_cons.
        rewrite (branched_fields_ext fields1 img_fields rest).
        { unfold fields1. case_bool_decide; [by rewrite <- app_assoc | done]. }
        intros kk Hkk. unfold fields1. case_bool_decide; [| done].
        rewrite elem_of_app, list_elem_of_singleton. split; [| by left].
        intros [? | Heq]; [done |]. exfalso. apply Hk2src. rewrite <- Heq.
        by apply (list_elem_of_fmap_2 fst).
      * intros k Hk. apply not_elem_of_cons in Hk as [Hkk2 Hk].
        rewrite (Hother k Hk). simpl. by apply Hres1.
      * intros k1' k2' Hin. apply elem_of_cons in Hin as [[= -> ->] | Hin].
        -- rewrite (Hother k2 Hk2). simpl. unfold res1.
           destruct (results st !! k1); [by rewrite lookup_insert_eq | done].
        -- rewrite (Htarget k1' k2' Hin). simpl.
           assert (k1' ≠ k2) as Hne1.
           { intros ->. apply Hk2src. by apply (list_elem_of_fmap_2 fst _ (k2, k2')). }
           assert (k2' ≠ k2) as Hne2.
           { intros ->. apply Hk2. by apply (list_elem_of_fmap_2 snd _ (k1', k2)). }
           by rewrite !Hres1.
Qed.

(** X15: on a [results] without [img_fields], a non-empty key map (whose
    first target is not [img_fields]) makes the call raise [KeyError] for
    [img_fields] at the first item, after the first source, when present,
    has been branched: [results] is left with the first target set and the
    other items are not visited.  An empty key map returns [results] as it
    is, with or without [img_fields]. *)
Theorem BranchImage_without_img_fields st :
  BranchImage_call [] st = (None, st) ∧
  ∀ k1 k2 rest,
    results st !! "img_fields" = None → k2 ≠ "img_fields" →
    BranchImage_call ((k1, k2) :: rest) st
    = (Some (PKeyError "img_fields"),
       {| results := match results st !! k1 with
                     | Some r => <[k2 := r]> (results st)
                     | None => results st
                     end;
          heap := heap st |}).
Proof.
  split; [done |]. intros k1 k2 rest Hf Hk2. simpl. unfold branch_item.
  destruct (results st !! k1) as [r |]; simpl.
  - by rewrite lookup_insert_ne, Hf.
  - rewrite Hf. by destruct st.
Qed.

End BranchImage.

(** ** Concrete runs *)

Definition placeholder : value := VStr "DEFAULT_FIELD_VALUE_FOR_USING_IN_TEST".

(** A test case class with two stages whose constructor raises unless it
    is given [true]. *)
Definition example_class : TestCaseClass bool :=
  {| get_list_of_test_stages := [VStr "train"; VStr "eval"];
     tc_init := λ ok : bool, if ok then None else Some "boom" |}.

Definition example_names : list (string * string) :=
  [("test_stage", "ACTION"); ("model_name", "model"); ("dataset_name", "dataset");
   ("batch_size", "batch"); ("usecase", "usecase")].

Definition example_defaults : dict :=
  <["num_iters" := VInt 1]> (<["batch_size" := VInt 2]> ∅).

Definition example_helper (bunches : list entry) (keys : list string) (defaults : dict)
  : OTETestHelper bool :=
  {| test_case_class := example_class;
     test_bunches := bunches;
     short_test_parameters_names_for_generating_id := example_names;
     test_parameters_defining_test_case_behavior := keys;
     default_test_parameters := defaults;
     _cache := Cache_init |}.

Definition bunch_AB : dict :=
  <["model_name" := VList [VStr "A"; VStr "B"]]>
    (<["dataset_name" := VList [VStr "X"]]> (<["usecase" := VStr "precommit"]> ∅)).

Definition record (model dataset : value) : dict :=
  <["model_name" := model]>
    (<["dataset_name" := dataset]>
       (<["test_stage" := VStr "train"]>
          (<["batch_size" := VInt 2]> (<["usecase" := VStr "precommit"]> ∅)))).

Definition record_of (model : value) : dict := record model (VStr "X").

Definition key_of (model : value) : dict := <["model_name" := model]> ∅.

(** A state with two expanded records, for models A and B. *)
Definition two_records : state bool :=
  {| self := example_helper [] ["model_name"] example_defaults;
     dicts := [record_of (VStr "A"); record_of (VStr "B")];
     objects := [] |}.

Ltac by_compute := vm_compute; reflexivity.
Ltac decide_it := apply (bool_decide_unpack _); vm_compute; exact I.

(** Four calls with the keys A, A, B, A on a new helper: three test cases
    are constructed, not two. *)
Lemma get_test_case_reuse_counterexample :
  let calls := [(0, true); (0, true); (1, true); (0, true)] in
  let σ' := (get_test_case_calls bool calls two_records).2 in
  (λ c, case_identity_key ["model_name"] <$> dicts bool two_records !! c.1) <$> calls
  = [Some (Ok (key_of (VStr "A"))); Some (Ok (key_of (VStr "A")));
     Some (Ok (key_of (VStr "B"))); Some (Ok (key_of (VStr "A")))] ∧
  key_of (VStr "A") ≠ key_of (VStr "B") ∧
  length (objects bool σ') - length (objects bool two_records) = 3 ∧
  length (objects bool σ') - length (objects bool two_records) ≠ 2.
Proof.
  split_and!.
  - by_compute.
  - decide_it.
  - by_compute.
  - vm_compute. lia.
Qed.

(** The same four calls: instances 0, 0, 1 and 2 are returned. *)
Lemma get_test_case_reuse_witness :
  ∃ σ',
    get_test_case_calls bool [(0, true); (0, true); (1, true); (0, true)] two_records
    = ([Ok (Some 0); Ok (Some 0); Ok (Some 1); Ok (Some 2)], σ') ∧
    objects bool σ' = [true; true; true] ∧
    _cache bool (self bool σ')
    = {| _cache_parameters := key_of (VStr "A"); _cached_value := Some 2 |} ∧
    (get_test_case bool 0 true two_records).2
    = (get_test_case bool 0 true (get_test_case bool 0 true two_records).2).2.
Proof.
  apply (get_test_case_reuse_is_last_key_only bool two_records 0 0 1 0
           (record_of (VStr "A")) (record_of (VStr "A"))
           (record_of (VStr "B")) (record_of (VStr "A"))
           true true true true (key_of (VStr "A")) (key_of (VStr "B")));
    try by_compute.
  - decide_it.
  - decide_it.
  - intros f Hf. repeat (apply elem_of_cons in Hf as [-> | Hf]); try reflexivity.
    by apply elem_of_nil in Hf.
Defined.

(** The state after the record for model A was served. *)
Definition cached_A : state bool := (get_test_case bool 0 true two_records).2.

(** A call for model B whose constructor raises, with A in the cache. *)
Lemma get_test_case_failed_construction_witness :
  (get_test_case bool 1 false cached_A).2 = cached_A ∧
  ∀ tp' d' f',
    dicts bool cached_A !! tp' = Some d' →
    case_identity_key
      (test_parameters_defining_test_case_behavior bool (self bool cached_A)) d'
    = Ok (_cache_parameters (_cache bool (self bool cached_A))) →
    get_test_case bool tp' f' (get_test_case bool 1 false cached_A).2
    = (Ok (_cached_value (_cache bool (self bool cached_A))), cached_A).
Proof.
  apply (get_test_case_failed_construction_keeps_cache bool cached_A 1 false "boom").
  by_compute.
Defined.

Definition no_identity_keys : OTETestCreationParameters bool :=
  {| cp_test_case_class := example_class;
     cp_test_bunches := [];
     cp_short_test_parameters_names_for_generating_id := example_names;
     cp_test_parameters_defining_test_case_behavior := [];
     cp_default_test_parameters := example_defaults |}.

(** Creation parameters with no parameter defining the test case. *)
Lemma get_test_case_empty_keys_witness :
  ∃ h, OTETestHelper_init bool no_identity_keys = Ok h ∧
       _cache bool h = Cache_init ∧
       ∀ ds os tp f,
         let σ := {| self := h; dicts := ds; objects := os |} in
         get_test_case bool tp f σ = (Ok None, σ).
Proof.
  apply (get_test_case_empty_keys_returns_None bool no_identity_keys).
  - reflexivity.
  - intros k Hk. repeat (apply elem_of_cons in Hk as [-> | Hk]); try decide_it.
    by apply elem_of_nil in Hk.
Defined.

(** The records lack [num_training_iters]. *)
Definition two_keys : state bool :=
  {| self := example_helper [] ["model_name"; "num_training_iters"] example_defaults;
     dicts := [record_of (VStr "A"); record_of (VStr "B")];
     objects := [] |}.

(** [num_training_iters] is asked for and absent. *)
Lemma get_test_case_missing_key_witness :
  ∃ k', k' ∈ ["model_name"; "num_training_iters"] ∧
        record_of (VStr "A") !! k' = None ∧
        get_test_case bool 0 true two_keys = (Raise (KeyError k'), two_keys).
Proof.
  apply (get_test_case_missing_key_raises bool two_keys 0 (record_of (VStr "A")) true
           "num_training_iters").
  - by_compute.
  - decide_it.
  - by_compute.
Defined.

(** One bunch for the models A and B on the dataset X. *)
Definition one_bunch : state bool :=
  {| self := example_helper [EDict 0] ["model_name"] example_defaults;
     dicts := [bunch_AB];
     objects := [] |}.

(** Two calls in a row on the bunch for A and B. *)
Lemma get_list_of_tests_pure_witness :
  let run1 := get_list_of_tests bool placeholder VNone one_bunch in
  let run2 := get_list_of_tests bool placeholder VNone run1.2 in
  self bool run1.2 = self bool one_bunch ∧
  objects bool run1.2 = objects bool one_bunch ∧
  (∀ a d, dicts bool one_bunch !! a = Some d → dicts bool run1.2 !! a = Some d) ∧
  output_contents bool run2 = output_contents bool run1.
Proof.
  apply (get_list_of_tests_pure bool placeholder VNone one_bunch).
  repeat constructor. by eexists.
Defined.


(** A bunch with no model at all. *)
Definition bunch_no_model : dict :=
  <["model_name" := VList []]>
    (<["dataset_name" := VStr "X"]> (<["usecase" := VStr "precommit"]> ∅)).

Definition only_empty_bunch : state bool :=
  {| self := example_helper [EDict 0] ["model_name"] example_defaults;
     dicts := [bunch_no_model];
     objects := [] |}.

Definition mixed_bunches : state bool :=
  {| self := example_helper [EDict 0; EDict 1] ["model_name"] example_defaults;
     dicts := [bunch_no_model; bunch_AB];
     objects := [] |}.

Definition not_a_dict : state bool :=
  {| self := example_helper [EDict 0; EOther (VStr "oops")] ["model_name"] example_defaults;
     dicts := [bunch_AB];
     objects := [] |}.

(** A bunch with an empty list of models: the call returns empty lists and
    raises nothing. *)
Lemma get_list_of_tests_empty_sequence_counterexample :
  as_sequence (default VNone (bunch_no_model !! "model_name")) = [] ∧
  get_list_of_tests bool placeholder VNone only_empty_bunch
  = (Ok (argnames, [], []), only_empty_bunch).
Proof. split; by_compute. Qed.

(** An element that is not a dict, a list with one empty bunch among two,
    and a list with only an empty bunch. *)
Lemma get_list_of_tests_errors_witness :
  get_list_of_tests bool placeholder VNone not_a_dict = (Raise AssertionError, not_a_dict) ∧
  output_contents bool (get_list_of_tests bool placeholder VNone mixed_bunches)
  = output_contents bool
      (get_list_of_tests bool placeholder VNone
         (set_test_bunches bool
            (filter (λ e, empty_bunch bool mixed_bunches e = false)
               (test_bunches bool (self bool mixed_bunches)))
            mixed_bunches)) ∧
  get_list_of_tests bool placeholder VNone only_empty_bunch
  = (Ok (argnames, [], []), only_empty_bunch).
Proof.
  split_and!.
  - apply (proj1 (get_list_of_tests_errors bool placeholder VNone not_a_dict)).
    exists (VStr "oops"). apply list_elem_of_further, list_elem_of_here.
  - apply (proj1 (proj2 (get_list_of_tests_errors bool placeholder VNone mixed_bunches))).
    repeat constructor; by eexists.
  - apply (proj2 (proj2 (get_list_of_tests_errors bool placeholder VNone only_empty_bunch))).
    + repeat constructor. by eexists.
    + repeat constructor.
Defined.

(** Records whose ids are compared: [0] and [1] differ in the model, [2]
    is [0] with another value for a key that is not in the naming map, [3]
    and [4] have a comma in an id value, [5] and [6] hold the integer 1 and
    the string "1". *)
Definition id_records : state bool :=
  {| self := example_helper [] ["model_name"] example_defaults;
     dicts := [record_of (VStr "A");
               record_of (VStr "B");
               <["num_iters" := VInt 7]> (record_of (VStr "A"));
               record (VStr "a,dataset-b") (VStr "c");
               record (VStr "a") (VStr "b,dataset-c");
               record_of (VInt 1);
               record_of (VStr "1")];
     objects := [] |}.

(** Records that differ in the model and get the same id. *)
Lemma generate_test_id_collision_counterexample :
  record (VStr "a,dataset-b") (VStr "c") !! "model_name"
  ≠ record (VStr "a") (VStr "b,dataset-c") !! "model_name" ∧
  (_generate_test_id bool 3 id_records).1
  = Ok "ACTION-train,model-a,dataset-b,dataset-c,batch-2,usecase-precommit" ∧
  (_generate_test_id bool 4 id_records).1
  = Ok "ACTION-train,model-a,dataset-b,dataset-c,batch-2,usecase-precommit" ∧
  record_of (VInt 1) !! "model_name" ≠ record_of (VStr "1") !! "model_name" ∧
  (_generate_test_id bool 5 id_records).1 = (_generate_test_id bool 6 id_records).1 ∧
  (_generate_test_id bool 5 id_records).1
  = Ok "ACTION-train,model-1,dataset-X,batch-2,usecase-precommit".
Proof. split_and!; try by_compute; decide_it. Qed.

(** The ids of [record_of (VStr m)] have no comma when [m] has none. *)
Lemma record_comma_free (m : string) :
  string_mem comma m = false →
  comma_free example_names (record_of (VStr m)).
Proof.
  intros Hm k sh v Hin Hv.
  repeat (apply elem_of_cons in Hin as [[= -> ->] | Hin]);
    [.. | by apply elem_of_nil in Hin];
    vm_compute in Hv; injection Hv as <-; split; (reflexivity || exact Hm).
Qed.

(** Equal ids for [0] and [2], different ids for [0] and [1], and the id of
    [0] spelled out. *)
Lemma generate_test_id_witness :
  _generate_test_id bool 0 id_records = _generate_test_id bool 2 id_records ∧
  "ACTION-train,model-A,dataset-X,batch-2,usecase-precommit"
  ≠ "ACTION-train,model-B,dataset-X,batch-2,usecase-precommit" ∧
  _generate_test_id bool 0 id_records
  = (Ok (join ","
           (zip_with (λ kn v, kn.2 +:+ "-" +:+ py_str v) example_names
              [VStr "train"; VStr "A"; VStr "X"; VInt 2; VStr "precommit"])),
     id_records).
Proof.
  split_and!.
  - apply (proj1 (generate_test_id_spec bool id_records 0 2
                    (record_of (VStr "A")) (<["num_iters" := VInt 7]> (record_of (VStr "A")))
                    eq_refl eq_refl)).
    intros k Hk. vm_compute in Hk.
    repeat (apply elem_of_cons in Hk as [-> | Hk]); try by_compute.
    by apply elem_of_nil in Hk.
  - apply (proj1 (proj2 (generate_test_id_spec bool id_records 0 1
                           (record_of (VStr "A")) (record_of (VStr "B")) eq_refl eq_refl))
             _ _ "model_name" (VStr "A") (VStr "B")); try by_compute.
    + decide_it.
    + decide_it.
    + by apply record_comma_free.
    + by apply record_comma_free.
  - apply (proj2 (proj2 (generate_test_id_spec bool id_records 0 0
                           (record_of (VStr "A")) (record_of (VStr "A")) eq_refl eq_refl))).
    repeat constructor.
Defined.

(** A record that holds [None] for [batch_size]. *)
Definition explicit_None : state bool :=
  {| self := example_helper [] ["model_name"] example_defaults;
     dicts := [<["batch_size" := VNone]> ∅];
     objects := [] |}.

(** [None], which is not the placeholder, is replaced by the default. *)
Lemma fill_default_values_None_counterexample :
  VNone ≠ placeholder ∧
  (λ d : dict, d !! "batch_size") <$> dicts bool explicit_None !! 0 = Some (Some VNone) ∧
  (λ d : dict, d !! "batch_size")
    <$> dicts bool (_fill_test_parameters_default_values bool placeholder 0 explicit_None).2 !! 0
  = Some (Some (VInt 2)).
Proof. split_and!; try by_compute. decide_it. Qed.

(** The fill-in on the record that holds [None]. *)
Lemma fill_test_parameters_default_values_witness :
  ∃ d',
    _fill_test_parameters_default_values bool placeholder 0 explicit_None
    = (Ok tt, set_dicts bool (<[0 := d']> (dicts bool explicit_None)) explicit_None) ∧
    ∀ k,
      match default_test_parameters bool (self bool explicit_None) !! k with
      | Some default_val =>
          ((<["batch_size" := VNone]> ∅ : dict) !! k = None
           ∨ (<["batch_size" := VNone]> ∅ : dict) !! k = Some VNone
           ∨ (<["batch_size" := VNone]> ∅ : dict) !! k = Some placeholder →
           d' !! k = Some default_val) ∧
          (∀ v, (<["batch_size" := VNone]> ∅ : dict) !! k = Some v → v ≠ VNone →
                v ≠ placeholder → d' !! k = Some v)
      | None => d' !! k = (<["batch_size" := VNone]> ∅ : dict) !! k
      end.
Proof.
  apply (fill_test_parameters_default_values_spec bool placeholder explicit_None 0).
  by_compute.
Defined.

(** A bunch whose [usecase] is [None]. *)
Definition bunch_no_usecase : dict :=
  <["model_name" := VStr "A"]>
    (<["dataset_name" := VStr "X"]> (<["usecase" := VNone]> ∅)).

Definition unset_usecase : state bool :=
  {| self := example_helper [EDict 0] ["model_name"] example_defaults;
     dicts := [bunch_no_usecase];
     objects := [] |}.

(** The unfiltered call returns two records; every filtered call returns
    none. *)
Lemma get_list_of_tests_union_counterexample :
  length (records_of bool (get_list_of_tests bool placeholder VNone unset_usecase)) = 2 ∧
  ∀ u, u ≠ VNone →
       records_of bool (get_list_of_tests bool placeholder u unset_usecase) = [].
Proof.
  split; [by_compute |]. intros u Hu.
  assert (bunches_on_heap bool unset_usecase) as Hwf by (repeat constructor; by eexists).
  unfold records_of. rewrite (run_contents bool placeholder u unset_usecase Hwf).
  assert (expansion bool placeholder u unset_usecase = []) as ->; [| reflexivity].
  unfold expansion. cbn [test_bunches self unset_usecase example_helper].
  rewrite bind_singleton. unfold entry_records.
  cbn [dicts unset_usecase lookup list_lookup].
  rewrite (selected_filter u bunch_no_usecase Hu).
  rewrite bool_decide_false; [reflexivity |].
  intros Heq. apply Hu. rewrite <- Heq. by_compute.
Qed.

(** Two bunches, for the usecases precommit and nightly. *)
Definition bunch_nightly : dict :=
  <["model_name" := VStr "C"]>
    (<["dataset_name" := VStr "Y"]> (<["usecase" := VStr "nightly"]> ∅)).

Definition two_usecases : state bool :=
  {| self := example_helper [EDict 0; EDict 1] ["model_name"] example_defaults;
     dicts := [bunch_AB; bunch_nightly];
     objects := [] |}.

(** Filtering two bunches with different usecases. *)
Lemma get_list_of_tests_usecase_filter_witness :
  (∀ u, u ≠ VNone →
     output_contents bool (get_list_of_tests bool placeholder u two_usecases)
     = output_contents bool
         (get_list_of_tests bool placeholder VNone
            (set_test_bunches bool
               (filter (λ e, bunch_usecase bool two_usecases e = u)
                  (test_bunches bool (self bool two_usecases)))
               two_usecases))) ∧
  (∀ r, r ∈ records_of bool (get_list_of_tests bool placeholder VNone two_usecases)
        ↔ ∃ u, u ≠ VNone
               ∧ r ∈ records_of bool (get_list_of_tests bool placeholder u two_usecases)).
Proof.
  assert (bunches_on_heap bool two_usecases) as Hwf by (repeat constructor; by eexists).
  destruct (get_list_of_tests_usecase_filter bool placeholder two_usecases Hwf) as [Hf Hu].
  split; [exact Hf |].
  eapply Hu.
  - repeat constructor; decide_it.
  - by_compute.
Defined.

(** ** Concrete runs for the further properties *)

(** What an interface with the example class and defaults hands out, for
    a naming map and a list of identity keys. *)
Definition example_outputs (names keys : pyobject) : InterfaceOutputs bool :=
  {| out_test_case_class := TestCaseSubclass bool example_class;
     out_test_bunches := [];
     out_short_test_parameters_names_for_generating_id := names;
     out_test_parameters_defining_test_case_behavior := keys;
     out_default_test_parameters :=
       PMapping PlainDict [(VStr "num_iters", VInt 1); (VStr "batch_size", VInt 2)] |}.

Definition example_names_items : list (value * value) :=
  [(VStr "test_stage", VStr "ACTION"); (VStr "model_name", VStr "model");
   (VStr "dataset_name", VStr "dataset"); (VStr "batch_size", VStr "batch");
   (VStr "usecase", VStr "usecase")].

(** An interface whose test case class is not a class and whose other
    outputs are all [None]. *)
Definition outputs_without_class : InterfaceOutputs bool :=
  {| out_test_case_class := NotAClass bool;
     out_test_bunches := [];
     out_short_test_parameters_names_for_generating_id := PValue VNone;
     out_test_parameters_defining_test_case_behavior := PValue VNone;
     out_default_test_parameters := PValue VNone |}.

(** Outputs that are accepted; the same with the naming map as a plain
    dict, and with the identity keys as a tuple: both rejected; and an
    interface without a class: [TypeError]. *)
Lemma OTETestHelper_init_validation_witness :
  OTETestHelper___init__ bool
    (AnInterface bool
       (example_outputs (PMapping OrderedDict example_names_items) (PValue (VList []))))
  = Constructed bool (example_helper [] [] example_defaults) ∧
  OTETestHelper___init__ bool
    (AnInterface bool
       (example_outputs (PMapping PlainDict example_names_items) (PValue (VList []))))
  = RaisedAssertionError bool ∧
  OTETestHelper___init__ bool
    (AnInterface bool
       (example_outputs (PMapping OrderedDict example_names_items) (PValue (VTuple []))))
  = RaisedAssertionError bool ∧
  OTETestHelper___init__ bool (AnInterface bool outputs_without_class)
  = RaisedTypeError bool.
Proof.
  split_and!.
  - apply (proj1 (OTETestHelper_init_validation bool _)).
    exists (example_outputs (PMapping OrderedDict example_names_items) (PValue (VList []))),
      no_identity_keys.
    split; [reflexivity |]. split; [| by_compute].
    unfold presents. split_and!; [reflexivity | reflexivity | reflexivity | reflexivity |].
    exists PlainDict, [("num_iters", VInt 1); ("batch_size", VInt 2)].
    split; by_compute.
  - apply (proj2 (proj2 (OTETestHelper_init_validation bool _))). split.
    + intros h Hh.
      apply (proj1 (OTETestHelper_init_validation bool _)) in Hh
        as (o & p & Ho & (_ & _ & Hn & _) & _).
      injection Ho as <-. discriminate Hn.
    + intros o Ho. injection Ho as <-. discriminate.
  - apply (proj2 (proj2 (OTETestHelper_init_validation bool _))). split.
    + intros h Hh.
      apply (proj1 (OTETestHelper_init_validation bool _)) in Hh
        as (o & p & Ho & (_ & _ & _ & Hk & _) & _).
      injection Ho as <-. discriminate Hk.
    + intros o Ho. injection Ho as <-. discriminate.
  - apply (proj1 (proj2 (OTETestHelper_init_validation bool _))).
    exists outputs_without_class. split; reflexivity.
Defined.

Definition bunch_full : dict :=
  <["num_training_iters" := VInt 10]> bunch_AB.

(** With the default interface: a bunch that gives [num_training_iters]
    and [usecase], and a bunch that does not give [num_training_iters]. *)
Lemma default_helper_witness :
  ∃ h,
    OTETestHelper_init bool (DefaultOTETestCreationParameters bool example_class [EDict 0])
    = Ok h ∧
    (∃ out, (get_list_of_tests bool placeholder VNone
               {| self := h; dicts := [bunch_full]; objects := [] |}).1 = Ok out) ∧
    (get_list_of_tests bool placeholder VNone
       {| self := h; dicts := [bunch_AB]; objects := [] |}
     = (Ok (argnames, [], []), {| self := h; dicts := [bunch_AB]; objects := [] |})
     ∨ (get_list_of_tests bool placeholder VNone
          {| self := h; dicts := [bunch_AB]; objects := [] |}).1
       = Raise (KeyError "num_training_iters")).
Proof.
  destruct (default_helper_needs_num_training_iters bool placeholder example_class [EDict 0])
    as (h & Hh & Hruns).
  exists h. split; [exact Hh |].
  injection Hh as <-. split.
  - apply (proj1 (Hruns [bunch_full] [] VNone ltac:(repeat constructor; by eexists))).
    intros a el Ha Hel. apply list_elem_of_singleton in Ha. injection Ha as ->.
    injection Hel as <-. split; by eexists.
  - apply (proj2 (Hruns [bunch_AB] [] VNone ltac:(repeat constructor; by eexists))).
    intros a el Ha Hel. apply list_elem_of_singleton in Ha. injection Ha as ->.
    injection Hel as <-. by_compute.
Defined.

(** The bunch for A and B on X with two stages: 2 x 1 x 2 records. *)
Lemma get_list_of_tests_count_witness :
  ∃ names argvalues ids,
    (get_list_of_tests bool placeholder VNone one_bunch).1 = Ok (names, argvalues, ids) ∧
    names = ["test_parameters"] ∧
    length ids = length argvalues ∧
    length argvalues
    = sum_list (bunch_count bool VNone one_bunch <$> test_bunches bool (self bool one_bunch)).
Proof.
  do 3 eexists. split; [by_compute |].
  apply (get_list_of_tests_count bool placeholder VNone one_bunch).
  - repeat constructor. by eexists.
  - by_compute.
Defined.

(** The four records are at the addresses 1 to 4, after the bunch. *)
Lemma get_list_of_tests_fresh_records_witness :
  ∃ names argvalues ids,
    (get_list_of_tests bool placeholder VNone one_bunch).1 = Ok (names, argvalues, ids) ∧
    argvalues = seq (length (dicts bool one_bunch)) (length argvalues) ∧
    NoDup argvalues ∧
    (∀ a, a ∈ argvalues →
          dicts bool one_bunch !! a = None
          ∧ is_Some (dicts bool (get_list_of_tests bool placeholder VNone one_bunch).2 !! a)) ∧
    length (dicts bool (get_list_of_tests bool placeholder VNone one_bunch).2)
    = length (dicts bool one_bunch) + length argvalues.
Proof.
  do 3 eexists. split; [by_compute |].
  eapply (get_list_of_tests_fresh_records bool placeholder VNone one_bunch
            ["test_parameters"] [1; 2; 3; 4]).
  - repeat constructor. by eexists.
  - by_compute.
Defined.

(** The first record of the bunch for A and B. *)
Lemma get_list_of_tests_record_keys_witness :
  ∃ r,
    Some r ∈ records_of bool (get_list_of_tests bool placeholder VNone one_bunch) ∧
    ∃ a el,
      EDict a ∈ test_bunches bool (self bool one_bunch) ∧
      dicts bool one_bunch !! a = Some el ∧
      selected VNone el = true ∧
      dom r = dom el ∪ expansion_keys ∪ dom (default_test_parameters bool (self bool one_bunch)) ∧
      (∀ k, k ∉ expansion_keys →
            default_test_parameters bool (self bool one_bunch) !! k = None →
            r !! k = el !! k) ∧
      (∀ k, k ∈ (short_test_parameters_names_for_generating_id bool (self bool one_bunch)).*1 →
            is_Some (r !! k)).
Proof.
  assert (∃ r, Some r ∈ records_of bool (get_list_of_tests bool placeholder VNone one_bunch))
    as [r Hr].
  { eexists. vm_compute. apply list_elem_of_here. }
  exists r. split; [exact Hr |].
  eapply (get_list_of_tests_record_keys bool placeholder VNone one_bunch).
  - repeat constructor. by eexists.
  - by_compute.
  - exact Hr.
Defined.

(** A record without [batch_size], at address 1. *)
Definition no_batch_size : state bool :=
  {| self := example_helper [] ["model_name"] example_defaults;
     dicts := [record_of (VStr "A"); delete "batch_size" (record_of (VStr "A"))];
     objects := [] |}.

Lemma generate_test_id_errors_witness :
  (∃ id, _generate_test_id bool 0 no_batch_size = (Ok id, no_batch_size)) ∧
  _generate_test_id bool 1 no_batch_size = (Raise (KeyError "batch_size"), no_batch_size).
Proof.
  split.
  - apply (proj1 (generate_test_id_errors bool no_batch_size 0 (record_of (VStr "A"))
                    eq_refl)).
    intros k Hk. vm_compute in Hk.
    repeat (apply elem_of_cons in Hk as [-> | Hk]); try (by eexists).
    by apply elem_of_nil in Hk.
  - apply (proj2 (generate_test_id_errors bool no_batch_size 1
                    (delete "batch_size" (record_of (VStr "A"))) eq_refl)
             [("test_stage", "ACTION"); ("model_name", "model"); ("dataset_name", "dataset")]
             "batch_size" "batch" [("usecase", "usecase")]).
    + reflexivity.
    + intros k Hk. vm_compute in Hk.
      repeat (apply elem_of_cons in Hk as [-> | Hk]); try (by eexists).
      by apply elem_of_nil in Hk.
    + by_compute.
Defined.

(** Filling the record that holds [None] twice. *)
Lemma fill_test_parameters_default_values_idempotent_witness :
  ∃ d',
    _fill_test_parameters_default_values bool placeholder 0 explicit_None
    = (Ok tt, set_dicts bool (<[0 := d']> (dicts bool explicit_None)) explicit_None) ∧
    dom d' = dom (<["batch_size" := VNone]> ∅ : dict)
             ∪ dom (default_test_parameters bool (self bool explicit_None)) ∧
    _fill_test_parameters_default_values bool placeholder 0
      (set_dicts bool (<[0 := d']> (dicts bool explicit_None)) explicit_None)
    = (Ok tt, set_dicts bool (<[0 := d']> (dicts bool explicit_None)) explicit_None).
Proof.
  apply (fill_test_parameters_default_values_idempotent bool placeholder explicit_None 0).
  by_compute.
Defined.

(** A call for model A, then a call with a record that differs in other
    keys only. *)
Lemma get_test_case_repeat_witness :
  case_identity_key
    (test_parameters_defining_test_case_behavior bool (self bool two_records))
    (record_of (VStr "A"))
  = Ok (_cache_parameters (_cache bool (self bool cached_A))) ∧
  _cached_value (_cache bool (self bool cached_A)) = Some 0 ∧
  ∀ tp2 d2 f2,
    dicts bool two_records !! tp2 = Some d2 →
    (∀ k, k ∈ test_parameters_defining_test_case_behavior bool (self bool two_records) →
          d2 !! k = record_of (VStr "A") !! k) →
    get_test_case bool tp2 f2 cached_A = (Ok (Some 0), cached_A).
Proof.
  apply (get_test_case_repeat bool two_records 0 true (record_of (VStr "A"))
           (Some 0) cached_A); by_compute.
Defined.

(** A new helper, and a first call on it. *)
Lemma get_test_case_cache_ok_witness :
  cache_ok bool {| self := example_helper [] [] example_defaults;
                   dicts := []; objects := [] |} ∧
  cache_ok bool (get_test_case bool 0 true two_records).2 ∧
  (∀ n, (get_test_case bool 0 true two_records).1 = Ok (Some n) →
        n < length (objects bool (get_test_case bool 0 true two_records).2)) ∧
  ((get_test_case bool 0 true two_records).1 = Ok None →
   test_parameters_defining_test_case_behavior bool (self bool two_records) = []).
Proof.
  split.
  - apply (proj1 (get_test_case_cache_ok bool) no_identity_keys). by_compute.
  - apply (proj2 (get_test_case_cache_ok bool) two_records 0 true). by_compute.
Defined.

(** The keys A, A, B, A from an empty cache: three changes. *)
Lemma get_test_case_calls_constructions_witness :
  let calls := [(0, true); (0, true); (1, true); (0, true)] in
  let run := get_test_case_calls bool calls two_records in
  length (objects bool run.2)
  = length (objects bool two_records)
    + key_changes (_cache_parameters (_cache bool (self bool two_records)))
        [key_of (VStr "A"); key_of (VStr "A"); key_of (VStr "B"); key_of (VStr "A")] ∧
  Forall (λ res, ∃ v, res = Ok v) run.1.
Proof.
  apply (get_test_case_calls_constructions bool).
  - repeat constructor; eexists; (split; [by_compute | by_compute]).
  - intros c Hc. repeat (apply elem_of_cons in Hc as [-> | Hc]); try reflexivity.
    by apply elem_of_nil in Hc.
Defined.

(** Serving the four records of the bunch for A and B: at most two
    instances, also when one constructor call raises. *)
Lemma get_test_case_serves_matrix_witness :
  (length (objects bool
            (get_test_case_calls bool [(1, true); (2, false); (3, true); (4, true)]
               (get_list_of_tests bool placeholder VNone one_bunch).2).2)
   ≤ length (objects bool one_bunch)
     + sum_list (bunch_pairs bool VNone one_bunch <$> test_bunches bool (self bool one_bunch)))%nat.
Proof.
  eapply (get_test_case_serves_matrix bool placeholder VNone one_bunch).
  - repeat constructor. by eexists.
  - decide_it.
  - by_compute.
  - by_compute.
Defined.

(** ** Concrete runs of [BranchImage] *)

(** Opaque objects that are not containers: [k in obj] raises
    [TypeError]. *)
Definition not_a_container (x : nat) (k : string) : pipeline_exn + bool :=
  inl PTypeError.

(** [results] with an image and the list of image fields. *)
Definition image_results : pipeline_state nat :=
  {| results := <["img" := 0]> (<["img_fields" := 1]> ∅);
     heap := [OOther nat 7; OList nat ["img"]] |}.

(** [results] with an image only. *)
Definition bare_results : pipeline_state nat :=
  {| results := <["img" := 0]> ∅; heap := [OOther nat 7] |}.

(** [results] with an image and the object [fields] as its image fields. *)
Definition results_with (fields : pyobj nat) : pipeline_state nat :=
  {| results := <["img" := 0]> (<["img_fields" := 1]> ∅);
     heap := [OOther nat 7; fields] |}.

Lemma BranchImage_branches_witness :
  ∃ res,
    BranchImage_call nat not_a_container [("img", "img0"); ("gt", "gt0")] image_results
    = (None,
       {| results := res;
          heap := <[1 := OList nat (["img"]
                                     ++ branched_fields ["img"]
                                          [("img", "img0"); ("gt", "gt0")])]>
                    (heap nat image_results) |}) ∧
    (∀ k, k ∉ [("img", "img0"); ("gt", "gt0")].*2 → res !! k = results nat image_results !! k) ∧
    (∀ k1 k2, (k1, k2) ∈ [("img", "img0"); ("gt", "gt0")] →
              res !! k2 = match results nat image_results !! k1 with
                          | Some r => Some r
                          | None => results nat image_results !! k2
                          end).
Proof.
  apply (BranchImage_branches nat not_a_container
           [("img", "img0"); ("gt", "gt0")] image_results 1 ["img"]).
  - by_compute.
  - by_compute.
  - decide_it.
  - intros k2 Hk2. vm_compute in Hk2.
    repeat (apply elem_of_cons in Hk2 as [-> | Hk2]); try (split; decide_it).
    by apply elem_of_nil in Hk2.
Defined.

Lemma BranchImage_without_img_fields_witness :
  BranchImage_call nat not_a_container [] bare_results = (None, bare_results) ∧
  BranchImage_call nat not_a_container [("img", "img0"); ("gt", "gt0")] bare_results
  = (Some (PKeyError "img_fields"),
     {| results := match results nat bare_results !! "img" with
                   | Some r => <["img0" := r]> (results nat bare_results)
                   | None => results nat bare_results
                   end;
        heap := heap nat bare_results |}).
Proof.
  split.
  - apply (proj1 (BranchImage_without_img_fields nat not_a_container bare_results)).
  - apply (proj2 (BranchImage_without_img_fields nat not_a_container bare_results)).
    + by_compute.
    + decide_it.
Defined.

(** Image fields that are not a list.  On a tuple the first item, whose
    source is no image field, is branched and the loop goes on to the
    second, where [append] raises [AttributeError] after [img0] has been
    set.  A deque with room for one item takes [img0] and loses [img].  On a
    [str] the test is for a substring.  On an image the test raises
    [TypeError] at the first item, after its target has been set. *)
Example BranchImage_call_not_a_list :
  BranchImage_call nat not_a_container [("gt", "gt0"); ("img", "img0")]
    (results_with (OTuple nat ["img"]))
  = (Some PAttributeError,
     {| results := <["img0" := 0]> (<["img" := 0]> (<["img_fields" := 1]> ∅));
        heap := [OOther nat 7; OTuple nat ["img"]] |}) ∧
  BranchImage_call nat not_a_container [("gt", "gt0"); ("img", "img0")]
    (results_with (ODeque nat (Some 1) ["img"]))
  = (None,
     {| results := <["img0" := 0]> (<["img" := 0]> (<["img_fields" := 1]> ∅));
        heap := [OOther nat 7; ODeque nat (Some 1) ["img0"]] |}) ∧
  BranchImage_call nat not_a_container [("mg", "img0")] (results_with (OStr nat "img"))
  = (Some PAttributeError, results_with (OStr nat "img")) ∧
  BranchImage_call nat not_a_container [("img", "img0"); ("gt", "gt0")]
    (results_with (OOther nat 7))
  = (Some PTypeError,
     {| results := <["img0" := 0]> (<["img" := 0]> (<["img_fields" := 1]> ∅));
        heap := [OOther nat 7; OOther nat 7] |}).
Proof. repeat split; by_compute. Qed.

(** [str] on a few values. *)
Example py_str_examples :
  py_str (VStr "A") = "A" ∧ py_str (VInt (-12)) = "-12" ∧ py_str VNone = "None" ∧
  py_str (VList [VInt 1; VStr "a"]) = "[1, 'a']" ∧
  py_str (VTuple [VStr "it's"]) = String "(" (String dquote_char ("it's" +:+ String dquote_char ",)")).
Proof. repeat split; reflexivity. Qed.

(** [repr] of the characters that are not printable: the control
    character 128, the no-break space and the soft hyphen are written with
    their hexadecimal digits, the inverted exclamation mark 161 is kept.  So
    a list holding the one-character string of code point 128 is rendered
    like the eight-character string on the right. *)
Example py_repr_escapes :
  py_repr (VStr (String "128"%char EmptyString)) = "'\x80'" ∧
  py_repr (VStr (String "160"%char (String "173"%char EmptyString))) = "'\xa0\xad'" ∧
  py_repr (VStr (String "161"%char EmptyString))
  = String quote_char (String "161"%char (String quote_char EmptyString)) ∧
  py_repr (VStr (String "127"%char (String "031"%char (String "009"%char EmptyString))))
  = "'\x7f\x1f\t'" ∧
  py_str (VList [VStr (String "128"%char EmptyString)]) = py_str (VStr "['\x80']").
Proof. repeat split; reflexivity. Qed.
